(** * Sgantispy: the Roblox profile analyser

    A shallow embedding of the pattern engine ([threat_analyzer.py]) and of
    the rate-limited fetch client ([roblox_api.py]), with the properties the
    specification states about them.

    Conventions of the embedding.
    - Python [str] is [string]; usernames, tokens and badge names are taken
      to be ASCII, so that [str.lower] and [str.upper] act on the letters
      A-Z and a-z only.
    - A Python [dict] decoded from JSON is a [gmap string pyval].
    - A statement that can raise is a computation in the exception monad
      [res]; [try ... except Exception] is [catch].
    - A naive [datetime] is its number of microseconds on the proleptic
      Gregorian time line; an aware one carries its UTC offset next to it.
    - The floats of the scoring code are exact rationals ([Q]);
      [threat_percentage_margin] shows that the exact percentage stays
      5/18 away from both verdict boundaries, and that every value less
      than 5/18 off gives the same verdict.
    - The client is followed through one coroutine; what the other
      coroutines of the event loop do to the shared client object while
      that one is suspended is the [others] of the client state. *)

From Stdlib Require Import ZArith QArith Qminmax Lia Lqa Ascii String.
From stdpp Require Import base option list gmap strings.

Set Warnings "-register-all".

Open Scope string_scope.
Open Scope Z_scope.

(** ** Exceptions *)

Inductive exn : Type :=
  | AttributeError
  | TypeError
  | ValueError
  | KeyError
  | IndexError
  | ClientError.

Inductive res (A : Type) : Type :=
  | Ret (a : A)
  | Raise (e : exn).
Arguments Ret {A} a.
Arguments Raise {A} e.

Definition rbind {A B : Type} (m : res A) (k : A -> res B) : res B :=
  match m with
  | Ret a => k a
  | Raise e => Raise e
  end.

(** [try: m except Exception: h] *)
Definition catch {A : Type} (m : res A) (h : exn -> res A) : res A :=
  match m with
  | Ret a => Ret a
  | Raise e => h e
  end.

Notation "'let*' x := m 'in' k" := (rbind m (fun x => k))
  (at level 10, x name, m at level 100, k at level 200, only parsing).

Definition raises {A : Type} (m : res A) : Prop :=
  match m with
  | Ret _ => False
  | Raise _ => True
  end.

(** ** Strings *)

Module Str.

Definition is_upper (c : ascii) : bool :=
  let n := nat_of_ascii c in (65 <=? n)%nat && (n <=? 90)%nat.

Definition is_lower (c : ascii) : bool :=
  let n := nat_of_ascii c in (97 <=? n)%nat && (n <=? 122)%nat.

Definition is_digit (c : ascii) : bool :=
  let n := nat_of_ascii c in (48 <=? n)%nat && (n <=? 57)%nat.

Definition lower_char (c : ascii) : ascii :=
  if is_upper c then ascii_of_nat (nat_of_ascii c + 32) else c.

Definition upper_char (c : ascii) : ascii :=
  if is_lower c then ascii_of_nat (nat_of_ascii c - 32) else c.

Fixpoint map (f : ascii -> ascii) (s : string) : string :=
  match s with
  | EmptyString => EmptyString
  | String c s' => String (f c) (map f s')
  end.

(** [s.lower()] and [s.upper()] *)
Definition lower : string -> string := map lower_char.
Definition upper : string -> string := map upper_char.

(** [pat in s] *)
Fixpoint contains (pat s : string) : bool :=
  String.prefix pat s ||
  match s with
  | EmptyString => false
  | String _ s' => contains pat s'
  end.

(** [c in s] for a one-character [c] *)
Fixpoint mem_char (c : ascii) (s : string) : bool :=
  match s with
  | EmptyString => false
  | String d s' => Ascii.eqb c d || mem_char c s'
  end.

(** [s.replace(c, r)] for a one-character [c] *)
Fixpoint replace_char (c : ascii) (r : string) (s : string) : string :=
  match s with
  | EmptyString => EmptyString
  | String d s' =>
      if Ascii.eqb c d then String.append r (replace_char c r s')
      else String d (replace_char c r s')
  end.

(** [sep.join(l)] *)
Definition join (sep : string) (l : list string) : string :=
  String.concat sep l.

End Str.

(** ** Values *)

(** [datetime]: the wall-clock reading in microseconds, and [tzinfo]
    (the UTC offset in seconds, when the value is aware). *)
Record datetime : Type := mk_datetime {
  dt_micros : Z;
  dt_tzinfo : option Z
}.

Inductive pyval : Type :=
  | PNone
  | PStr (s : string)
  | PInt (z : Z)
  | PDatetime (d : datetime).

(** Truth value of an object, as [if not x] tests it. *)
Definition truthy (v : pyval) : bool :=
  match v with
  | PNone => false
  | PStr s => negb (String.eqb s "")
  | PInt z => negb (Z.eqb z 0)
  | PDatetime _ => true
  end.

Abbreviation pydict := (gmap string pyval).

(** [d.get(key, '').lower()]: an [AttributeError] when the value is not a
    string. *)
Definition get_lower (d : pydict) (key : string) : res string :=
  match default (PStr "") (d !! key) with
  | PStr s => Ret (Str.lower s)
  | _ => Raise AttributeError
  end.

(** ** ThreatAnalyzer *)

Record ThreatAnalyzer : Type := mk_analyzer {
  suspicious_patterns : list string;
  specific_badge_ids : gmap Z string
}.

(** [ThreatAnalyzer.__init__] *)
Definition ThreatAnalyzer_init : ThreatAnalyzer :=
  {| suspicious_patterns := ["xyris"; "vqs"; "risen"; "sc"; "dt"; "xraid"];
     specific_badge_ids :=
       <[3057416426456972 := "Baby Steps"]>
       (<[3114670201603542 := "Head First"]>
       (<[3006399776257311 := "A Natural"]>
       (<[268490457371003 := "Turning Point"]>
       (<[341084106898320 := "Seasoned Killer"]>
       (<[2724124286915993 := "Skull Seeker"]> ∅))))) |}.

(** *** check_suspicious_names *)

(** The inner [for pattern in self.suspicious_patterns] loop, left at the
    first match by [break]: the copy to append, if any. *)
Fixpoint match_first_pattern (user : pydict) (username display_name : string)
    (patterns : list string) : option pydict :=
  match patterns with
  | [] => None
  | pattern :: rest =>
      if Str.contains pattern username || Str.contains pattern display_name
      then Some (<["matched_pattern" := PStr (Str.upper pattern)]> user)
      else match_first_pattern user username display_name rest
  end.

(** The outer [for user in users_list] loop over the accumulator
    [suspicious_users]. *)
Fixpoint suspicious_names_loop (self : ThreatAnalyzer) (users_list : list pydict)
    (suspicious_users : list pydict) : res (list pydict) :=
  match users_list with
  | [] => Ret suspicious_users
  | user :: rest =>
      let* username := get_lower user "name" in
      let* display_name := get_lower user "displayName" in
      match match_first_pattern user username display_name
              (suspicious_patterns self) with
      | Some user_copy =>
          suspicious_names_loop self rest (suspicious_users ++ [user_copy])
      | None => suspicious_names_loop self rest suspicious_users
      end
  end.

Definition check_suspicious_names (self : ThreatAnalyzer)
    (users_list : list pydict) : res (list pydict) :=
  suspicious_names_loop self users_list [].

(** *** Dates *)

(** The two parsers of the [datetime] module the analyser calls. They are
    library code: a parser answers with a [datetime] or raises
    ([ValueError]). *)
Class DatetimeLib : Type := {
  fromisoformat : string -> res datetime;
  strptime_ymd : string -> res datetime
}.

Definition micros_per_day : Z := 86400 * 1000000.

(** [timedelta(days=n)] in microseconds *)
Definition timedelta_days (n : Z) : Z := n * micros_per_day.

(** [(a - b).days]: a [timedelta] is normalised with
    [0 <= seconds < 86400], so [days] is the floor of the quotient. *)
Definition sub_days (a b : datetime) : Z :=
  (dt_micros a - dt_micros b) / micros_per_day.

(** [dt.replace(tzinfo=None)] *)
Definition drop_tzinfo (dt : datetime) : datetime :=
  {| dt_micros := dt_micros dt; dt_tzinfo := None |}.

Section Dates.
Context `{DatetimeLib}.

(** The block the analyser repeats for every date it reads
    (lines 42-53, 155-164 and 174-183 of [threat_analyzer.py]):
    parse a string, take any other object as it is, and drop the
    time zone. Reading [.tzinfo] of an object that is not a
    [datetime] raises [AttributeError]. *)
Definition read_date (created_date : pyval) : res datetime :=
  let* created_dt :=
    match created_date with
    | PStr s =>
        if Str.mem_char "T" s
        then fromisoformat (Str.replace_char "Z" "+00:00" s)
        else strptime_ymd s
    | PDatetime d => Ret d
    | PNone | PInt _ => Raise AttributeError
    end in
  Ret (match dt_tzinfo created_dt with
       | Some _ => drop_tzinfo created_dt
       | None => created_dt
       end).

(** *** check_account_age
    [now] is the reading of [datetime.now()]. *)
Definition check_account_age (now : datetime) (created_date : pyval)
    : res bool :=
  catch
    (let* created_dt := read_date created_date in
     let four_months_ago := dt_micros now - timedelta_days 120 in
     Ret (four_months_ago <? dt_micros created_dt))
    (fun _ => Ret false).

(** *** check_creation_date_patterns *)

Record same_period_account : Type := mk_same_period {
  spa_username : pyval;
  spa_created_date : pyval;
  spa_days_apart : Z
}.

(** [d.get(key)] *)
Definition get_or_none (d : pydict) (key : string) : pyval :=
  default PNone (d !! key).

(** One turn of [for friend_data in suspicious_friends_data]: the entry
    to append, if any. *)
Definition creation_date_step (user_date : datetime) (friend_data : pydict)
    : res (option same_period_account) :=
  let friend_created := get_or_none friend_data "created_date" in
  if negb (truthy friend_created) then Ret None
  else
    catch
      (let* friend_date := read_date friend_created in
       let time_diff := Z.abs (sub_days user_date friend_date) in
       if time_diff <=? 7
       then Ret (Some {| spa_username := get_or_none friend_data "name";
                         spa_created_date := friend_created;
                         spa_days_apart := time_diff |})
       else Ret None)
      (fun _ => Ret None).

Fixpoint creation_date_loop (user_date : datetime)
    (suspicious_friends_data : list pydict)
    (same_period_accounts : list same_period_account)
    : res (list same_period_account) :=
  match suspicious_friends_data with
  | [] => Ret same_period_accounts
  | friend_data :: rest =>
      let* found := creation_date_step user_date friend_data in
      match found with
      | Some entry =>
          creation_date_loop user_date rest (same_period_accounts ++ [entry])
      | None => creation_date_loop user_date rest same_period_accounts
      end
  end.

Definition check_creation_date_patterns (user_created_date : pyval)
    (suspicious_friends_data : list pydict)
    : res (list same_period_account) :=
  if negb (truthy user_created_date) then Ret []
  else match suspicious_friends_data with
  | [] => Ret []
  | _ =>
    catch
      (let* user_date := read_date user_created_date in
       creation_date_loop user_date suspicious_friends_data [])
      (fun _ => Ret [])
  end.

End Dates.

(** *** check_badge_count *)

Definition check_badge_count (badges_list : list pydict) : bool :=
  Z.of_nat (length badges_list) <? 40.

(** *** check_specific_badges *)

Record found_badge : Type := mk_found_badge {
  fb_id : pyval;
  fb_name : pyval;
  fb_description : pyval;
  fb_expected_name : string
}.

(** [self.specific_badge_ids[badge_id]] guarded by
    [badge_id in self.specific_badge_ids]: the keys are integers, so only
    an integer id can be found. *)
Definition watch_list_get (ids : gmap Z string) (badge_id : pyval)
    : option string :=
  match badge_id with
  | PInt z => ids !! z
  | _ => None
  end.

Fixpoint specific_badges_loop (self : ThreatAnalyzer) (badges_list : list pydict)
    (found_badges : list found_badge) : list found_badge :=
  match badges_list with
  | [] => found_badges
  | badge :: rest =>
      let badge_id := get_or_none badge "id" in
      match watch_list_get (specific_badge_ids self) badge_id with
      | Some expected =>
          specific_badges_loop self rest
            (found_badges ++
             [{| fb_id := badge_id;
                 fb_name := default (PStr expected) (badge !! "name");
                 fb_description := default (PStr "") (badge !! "description");
                 fb_expected_name := expected |}])
      | None => specific_badges_loop self rest found_badges
      end
  end.

Definition check_specific_badges (self : ThreatAnalyzer)
    (badges_list : list pydict) : list found_badge :=
  specific_badges_loop self badges_list [].

(** *** calculate_threat_level *)

(** The evidence bundle, as far as the aggregator reads it. *)
Record analysis_results : Type := mk_results {
  suspicious_friends : list pydict;
  suspicious_followers : list pydict;
  suspicious_following : list pydict;
  account_age_flag : bool;
  badge_count_flag : bool;
  specific_badges_found : list found_badge;
  avatar_flag : bool
}.

Definition len {A : Type} (l : list A) : Z := Z.of_nat (length l).

Definition flag (b : bool) : Z := if b then 1 else 0.

(** [min(a, b)] of Python: [b] when [b < a], else [a]. *)
Definition py_min (a b : Q) : Q := if Qle_bool a b then a else b.

(** The [factors] table, in the order of the dict literal:
    (count, max_count, weight). *)
Definition factors (r : analysis_results) : list (Z * Z * Z) :=
  [ (len (suspicious_friends r), 3, 2);
    (len (suspicious_followers r), 2, 1);
    (len (suspicious_following r), 2, 1);
    (flag (account_age_flag r), 1, 3);
    (flag (badge_count_flag r), 1, 2);
    (len (specific_badges_found r), 3, 2);
    (flag (avatar_flag r), 1, 1) ].

(** The body of [for factor_name, (count, max_count, weight) in ...] on
    the pair (threat_score, max_score). *)
Definition factor_step (acc : Q * Z) (f : Z * Z * Z) : Q * Z :=
  let '(threat_score, max_score) := acc in
  let '(count, max_count, weight) := f in
  let factor_score :=
    (py_min (inject_Z count / inject_Z max_count) 1 * inject_Z weight)%Q in
  ((threat_score + factor_score)%Q, max_score + weight).

Definition threat_percentage (r : analysis_results) : Q :=
  let '(threat_score, max_score) := fold_left factor_step (factors r) (0%Q, 0) in
  if 0 <? max_score
  then ((threat_score / inject_Z max_score) * 100)%Q
  else 0%Q.

Definition calculate_threat_level (r : analysis_results) : string :=
  let threat_percentage := threat_percentage r in
  if Qle_bool 70 threat_percentage then "High"
  else if Qle_bool 40 threat_percentage then "Medium"
  else "Low".

(** *** _check_character_substitution_similarity *)

(** A dict keeps its keys in insertion order; storing under a key that is
    already there replaces the value and leaves the key where it is. *)
Fixpoint dict_set {K V : Type} (eqb : K -> K -> bool) (k : K) (v : V)
    (d : list (K * V)) : list (K * V) :=
  match d with
  | [] => [(k, v)]
  | (k', v') :: d' =>
      if eqb k k' then (k', v) :: d' else (k', v') :: dict_set eqb k v d'
  end.

(** A dict display [{k1: v1, k2: v2, ...}] stores its items from left to
    right. *)
Definition dict_display {K V : Type} (eqb : K -> K -> bool)
    (items : list (K * V)) : list (K * V) :=
  fold_left (fun d kv => dict_set eqb (fst kv) (snd kv) d) items [].

Definition substitutions : list (ascii * string) :=
  dict_display Ascii.eqb
    [ ("0"%char, "o"); ("1"%char, "i"); ("1"%char, "l"); ("3"%char, "e");
      ("4"%char, "a"); ("5"%char, "s"); ("7"%char, "t"); ("8"%char, "b");
      ("@"%char, "a") ].

(** [for num, char in substitutions.items():
       normalized = normalized.replace(num, char)] *)
Definition normalize_username (username : string) : string :=
  fold_left (fun normalized kv => Str.replace_char (fst kv) (snd kv) normalized)
    substitutions username.

(** [zip(norm1, norm2)] *)
Fixpoint zip_str (a b : string) : list (ascii * ascii) :=
  match a, b with
  | String x a', String y b' => (x, y) :: zip_str a' b'
  | _, _ => []
  end.

(** [sum(1 for a, b in zip(norm1, norm2) if a == b)] *)
Definition count_matches (norm1 norm2 : string) : Z :=
  len (filter (fun p => Ascii.eqb (fst p) (snd p) = true) (zip_str norm1 norm2)).

Definition strlen (s : string) : Z := Z.of_nat (String.length s).

Definition check_character_substitution_similarity (username1 username2 : string)
    : Q :=
  let norm1 := normalize_username username1 in
  let norm2 := normalize_username username2 in
  if (strlen norm1 =? 0) || (strlen norm2 =? 0) then 0%Q
  else
    let matches := count_matches norm1 norm2 in
    let max_len := Z.max (strlen norm1) (strlen norm2) in
    if 0 <? max_len then (inject_Z matches / inject_Z max_len)%Q else 0%Q.

(** *** check_username_generation_patterns *)

Definition newline : ascii := ascii_of_nat 10.

(** [$]: the end of the string, or just before a last line feed. *)
Definition at_end (s : string) : bool :=
  match s with
  | EmptyString => true
  | String c EmptyString => Ascii.eqb c newline
  | _ => false
  end.

(** [\d+$] against the rest of the subject. *)
Fixpoint digits_to_end (s : string) : bool :=
  match s with
  | EmptyString => false
  | String c s' => Str.is_digit c && (at_end s' || digits_to_end s')
  end.

(** The digits of group 2: the subject without the line feed [$] may have
    skipped. *)
Fixpoint leading_digits (s : string) : string :=
  match s with
  | EmptyString => EmptyString
  | String c s' => if Str.is_digit c then String c (leading_digits s') else EmptyString
  end.

(** [int(number)] for a string of decimal digits *)
Definition int_of_digits (s : string) : Z :=
  fold_left (fun n c => 10 * n + (Z.of_nat (nat_of_ascii c) - 48))
    (list_ascii_of_string s) 0.

(** The lazy group 1, [(.+?)]: [base] has been taken (it is not empty);
    the matcher tries the rest of the pattern before it takes one more
    character, and [.] takes no line feed. *)
Fixpoint lazy_prefix (base rest : string) : option (string * string) :=
  if digits_to_end rest then Some (base, leading_digits rest)
  else match rest with
       | EmptyString => None
       | String c rest' =>
           if Ascii.eqb c newline then None
           else lazy_prefix (String.append base (String c EmptyString)) rest'
       end.

(** [re.match(r'^(.+?)(\d+)$', s)] and [match.groups()] *)
Definition re_match_base_number (s : string) : option (string * string) :=
  match s with
  | EmptyString => None
  | String c rest =>
      if Ascii.eqb c newline then None
      else lazy_prefix (String c EmptyString) rest
  end.

(** [groups[key].append(v)] on a [defaultdict(list)] *)
Fixpoint group_append {V : Type} (key : string) (v : V)
    (groups : list (string * list V)) : list (string * list V) :=
  match groups with
  | [] => [(key, [v])]
  | (k, vs) :: groups' =>
      if String.eqb key k then (k, (vs ++ [v])%list) :: groups'
      else (k, vs) :: group_append key v groups'
  end.

Definition number_base_groups (usernames : list string)
    : list (string * list (string * Z)) :=
  fold_left
    (fun groups username =>
       match re_match_base_number (Str.lower username) with
       | Some (base_name, number) =>
           group_append base_name (username, int_of_digits number) groups
       | None => groups
       end)
    usernames [].

(** [user_list.sort(key=lambda x: x[1])]: a stable sort on the number. *)
Fixpoint insert_by_number (x : string * Z) (l : list (string * Z))
    : list (string * Z) :=
  match l with
  | [] => [x]
  | y :: l' =>
      if snd x <=? snd y then x :: y :: l' else y :: insert_by_number x l'
  end.

Definition sort_by_number (l : list (string * Z)) : list (string * Z) :=
  foldr insert_by_number [] l.

(** [for i in range(1, len(numbers))] with its [break] *)
Fixpoint is_sequential (numbers : list Z) : bool :=
  match numbers with
  | a :: (b :: _) as tl => if 3 <? b - a then false else is_sequential tl
  | _ => true
  end.

Record name_pattern : Type := mk_pattern {
  np_type : string;
  np_pattern : string;
  np_usernames : list string;
  np_description : string
}.

(** The body of [for base_name, user_list in number_base_groups.items()] *)
Definition sequential_group (g : string * list (string * Z))
    : option name_pattern :=
  let '(base_name, user_list) := g in
  if 2 <=? len user_list then
    let user_list := sort_by_number user_list in
    let numbers := map snd user_list in
    if is_sequential numbers then
      let pattern_usernames := map fst user_list in
      Some {| np_type := "Sequential Numbers";
              np_pattern := String.append base_name "[numbers]";
              np_usernames := pattern_usernames;
              np_description :=
                String.append "Sequential numbering pattern: "
                  (Str.join ", " pattern_usernames) |}
    else None
  else None.

(** Pattern 1 *)
Definition sequential_patterns (usernames : list string) : list name_pattern :=
  omap sequential_group (number_base_groups usernames).

(** [username_lower[:4]] and [username_lower[-4:]] *)
Definition first4 (s : string) : string := String.substring 0 4 s.
Definition last4 (s : string) : string :=
  String.substring (String.length s - 4) 4 s.

Definition affix_groups (affix : string -> string) (usernames : list string)
    : list (string * list string) :=
  fold_left
    (fun groups username =>
       let username_lower := Str.lower username in
       if 4 <=? strlen username_lower
       then group_append (affix username_lower) username groups
       else groups)
    usernames [].

Definition prefix_group (g : string * list string) : option name_pattern :=
  let '(prefix, user_list) := g in
  if 3 <=? len user_list then
    Some {| np_type := "Common Prefix";
            np_pattern := String.append prefix "*";
            np_usernames := user_list;
            np_description :=
              String.append "Common prefix '"
                (String.append prefix
                   (String.append "': " (Str.join ", " user_list))) |}
  else None.

Definition suffix_group (g : string * list string) : option name_pattern :=
  let '(suffix, user_list) := g in
  if 3 <=? len user_list then
    Some {| np_type := "Common Suffix";
            np_pattern := String.append "*" suffix;
            np_usernames := user_list;
            np_description :=
              String.append "Common suffix '"
                (String.append suffix
                   (String.append "': " (Str.join ", " user_list))) |}
  else None.

(** Pattern 2 *)
Definition affix_patterns (usernames : list string) : list name_pattern :=
  (omap prefix_group (affix_groups first4 usernames) ++
   omap suffix_group (affix_groups last4 usernames))%list.

(** [for i, username1 in enumerate(usernames):
       for username2 in usernames[i+1:]: ...] *)
Fixpoint substitution_pairs (usernames : list string) : list (string * string) :=
  match usernames with
  | [] => []
  | username1 :: later =>
      (omap (fun username2 =>
               let similarity :=
                 check_character_substitution_similarity
                   (Str.lower username1) (Str.lower username2) in
               if Qle_bool similarity (8 # 10) then None
               else Some (username1, username2))
            later
       ++ substitution_pairs later)%list
  end.

(** Pattern 3. [unique_users] is a [set]: [set_iter] gives the order in
    which the interpreter iterates over the set built from the names in
    the order they were added. *)
Definition substitution_patterns (set_iter : list string -> list string)
    (usernames : list string) : list name_pattern :=
  match substitution_pairs usernames with
  | [] => []
  | pairs =>
      let unique_users :=
        set_iter (flat_map (fun p => [fst p; snd p]) pairs) in
      [ {| np_type := "Character Substitution";
           np_pattern := "Similar names with character substitutions";
           np_usernames := unique_users;
           np_description :=
             String.append "Similar usernames with character substitutions: "
               (Str.join ", " unique_users) |} ]
  end.

(** [user.get('name', '')], lowered further on: a name that is not a
    string raises [AttributeError] at the first [.lower()]. *)
Definition get_name (user : pydict) : res string :=
  match default (PStr "") (user !! "name") with
  | PStr s => Ret s
  | _ => Raise AttributeError
  end.

Fixpoint get_names (users : list pydict) : res (list string) :=
  match users with
  | [] => Ret []
  | user :: rest =>
      let* n := get_name user in
      let* ns := get_names rest in
      Ret (n :: ns)
  end.

Definition check_username_generation_patterns
    (set_iter : list string -> list string)
    (suspicious_friends_list : list pydict) : res (list name_pattern) :=
  match suspicious_friends_list with
  | [] => Ret []
  | _ =>
      let* usernames := get_names suspicious_friends_list in
      Ret (sequential_patterns usernames ++
           affix_patterns usernames ++
           substitution_patterns set_iter usernames)%list
  end.

(** ** RobloxAPI: the rate-limited fetch client *)

Inductive json : Type :=
  | JNull
  | JBool (b : bool)
  | JNum (z : Z)
  | JStr (s : string)
  | JArr (l : list json)
  | JObj (l : list (string * json)).

(** What the remote end does with one request: it answers after [took]
    time units with a status and a body ([response.json()] may fail on
    it), or the transport fails. *)
Inductive reply : Type :=
  | Reply (took : Q) (status : Z) (body : res json)
  | Broken (took : Q) (e : exn).

(** The n-th request of the coroutine we follow gets the n-th reply. *)
Definition server : Type := nat -> reply.

Inductive event : Type :=
  | Sent (url : string) (attempt : Z)
  | Posted (url : string)
  | SleptSpacing (d : Q)
  | SleptBackoff (wait_time : Z)
  | SleptPause (d : Z).

(** What the rest of the event loop did while the coroutine we follow was
    suspended at an [await]: the time that passed beyond the awaited one,
    and the last value another coroutine sharing the client stored in
    [last_request_time], if one did ([main.py] gathers several requests on
    the one module-level client). *)
Record interference : Type := mk_interference {
  elapsed : Q;
  stamped : option Q
}.

(** Nothing else ran. *)
Definition quiet : interference := {| elapsed := 0; stamped := None |}.

(** The client object with the event loop it runs on: [clock] is
    [asyncio.get_event_loop().time()]; [sent] counts the requests of the
    coroutine we follow and [trace] records them and its sleeps;
    [awaits] counts its suspensions, and [others n] is what the other
    coroutines of the loop do during the n-th one. *)
Record RobloxAPI : Type := mk_api {
  users_url : string;
  session : bool;
  rate_limit_delay : Q;
  last_request_time : Q;
  clock : Q;
  sent : nat;
  trace : list event;
  awaits : nat;
  others : nat -> interference
}.

(** [RobloxAPI.__init__], on a loop whose clock reads [t] and that runs
    nothing else. *)
Definition RobloxAPI_init (t : Q) : RobloxAPI :=
  {| users_url := "https://users.roblox.com";
     session := false;
     rate_limit_delay := 15 # 10;
     last_request_time := 0;
     clock := t;
     sent := 0;
     trace := [];
     awaits := 0;
     others := fun _ => quiet |}.

(** The same client on a loop that also runs the coroutines [sched]
    stands for. *)
Definition shared_with (sched : nat -> interference) (self : RobloxAPI)
    : RobloxAPI :=
  {| users_url := users_url self; session := session self;
     rate_limit_delay := rate_limit_delay self;
     last_request_time := last_request_time self;
     clock := clock self; sent := sent self; trace := trace self;
     awaits := awaits self; others := sched |}.

(** [await self._ensure_session()]: the coroutine has no [await] of its
    own, so nothing else runs meanwhile. *)
Definition ensure_session (self : RobloxAPI) : RobloxAPI :=
  if session self then self
  else {| users_url := users_url self; session := true;
          rate_limit_delay := rate_limit_delay self;
          last_request_time := last_request_time self;
          clock := clock self; sent := sent self; trace := trace self;
          awaits := awaits self; others := others self |}.

(** The coroutine is suspended and resumed: the other coroutines have
    run meanwhile. *)
Definition suspend (self : RobloxAPI) : RobloxAPI :=
  let meanwhile := others self (awaits self) in
  {| users_url := users_url self; session := session self;
     rate_limit_delay := rate_limit_delay self;
     last_request_time :=
       default (last_request_time self) (stamped meanwhile);
     clock := (clock self + elapsed meanwhile)%Q;
     sent := sent self; trace := trace self;
     awaits := S (awaits self); others := others self |}.

(** [await asyncio.sleep(d)] *)
Definition sleep (ev : event) (d : Q) (self : RobloxAPI) : RobloxAPI :=
  suspend
    {| users_url := users_url self; session := session self;
       rate_limit_delay := rate_limit_delay self;
       last_request_time := last_request_time self;
       clock := (clock self + d)%Q; sent := sent self;
       trace := trace self ++ [ev];
       awaits := awaits self; others := others self |}.

(** One request on the wire: the clock advances by the time it took, and
    the coroutine was suspended meanwhile. *)
Definition dispatch (ev : event) (took : Q) (self : RobloxAPI) : RobloxAPI :=
  suspend
    {| users_url := users_url self; session := session self;
       rate_limit_delay := rate_limit_delay self;
       last_request_time := last_request_time self;
       clock := (clock self + took)%Q; sent := S (sent self);
       trace := trace self ++ [ev];
       awaits := awaits self; others := others self |}.

(** [self.last_request_time = asyncio.get_event_loop().time()] *)
Definition stamp (self : RobloxAPI) : RobloxAPI :=
  {| users_url := users_url self; session := session self;
     rate_limit_delay := rate_limit_delay self;
     last_request_time := clock self;
     clock := clock self; sent := sent self; trace := trace self;
     awaits := awaits self; others := others self |}.

Definition Qlt_bool (a b : Q) : bool := negb (Qle_bool b a).

(** The rate limiting at the head of every attempt. The time to sleep is
    worked out from the [last_request_time] read before the sleep; what
    the other coroutines store there during the sleep is not looked at
    again. *)
Definition rate_limit (self : RobloxAPI) : RobloxAPI :=
  let current_time := clock self in
  let time_since_last := (current_time - last_request_time self)%Q in
  if Qlt_bool time_since_last (rate_limit_delay self)
  then let d := (rate_limit_delay self - time_since_last)%Q in
       sleep (SleptSpacing d) d self
  else self.

(** How the body of the [for] loop is left. *)
Inductive ctl : Type :=
  | Continue
  | FallThrough
  | Return (v : option json).

(** The body of [async with self.session.get(url, **kwargs) as response],
    entered with the reply [status], [body]. *)
Definition attempt_response (max_retries attempt : Z) (status : Z)
    (body : res json) (self : RobloxAPI) : RobloxAPI * res ctl :=
  let self := stamp self in
  if status =? 200 then
    (* [return await response.json()] *)
    let self := suspend self in
    (self, let* data := body in Ret (Return (Some data)))
  else if status =? 429 then
    if attempt <? max_retries - 1 then
      let wait_time := Z.min 8 (2 ^ attempt) in
      (sleep (SleptBackoff wait_time) (inject_Z wait_time) self,
       Ret Continue)
    else (self, Ret (Return None))
  else (self, Ret (Return None)).

(** The [try] block of one attempt. A transport failure is raised by
    [session.get] itself; otherwise the block of the [async with] runs and
    its exit is awaited, however the block is left. *)
Definition attempt_try (srv : server) (url : string) (max_retries attempt : Z)
    (self : RobloxAPI) : RobloxAPI * res ctl :=
  if session self then
    match srv (sent self) with
    | Broken took e => (dispatch (Sent url attempt) took self, Raise e)
    | Reply took status body =>
        let self := dispatch (Sent url attempt) took self in
        let '(self, r) :=
          attempt_response max_retries attempt status body self in
        (suspend self, r)
    end
  else (self, Ret FallThrough).

(** The [except Exception] handler of one attempt. *)
Definition attempt_except (max_retries attempt : Z) (self : RobloxAPI)
    : RobloxAPI * res ctl :=
  if attempt <? max_retries - 1
  then (sleep (SleptPause 1) 1 self, Ret Continue)
  else (self, Ret (Return None)).

Definition attempt_body (srv : server) (url : string) (max_retries attempt : Z)
    (self : RobloxAPI) : RobloxAPI * res ctl :=
  let self := rate_limit self in
  let '(self, r) := attempt_try srv url max_retries attempt self in
  match r with
  | Ret c => (self, Ret c)
  | Raise _ => attempt_except max_retries attempt self
  end.

(** [for attempt in range(max_retries)] and the [return None] after it. *)
Fixpoint request_loop (srv : server) (url : string) (max_retries : Z)
    (attempts : list Z) (self : RobloxAPI) : RobloxAPI * res (option json) :=
  match attempts with
  | [] => (self, Ret None)
  | attempt :: rest =>
      let '(self, r) := attempt_body srv url max_retries attempt self in
      match r with
      | Ret (Return v) => (self, Ret v)
      | Ret Continue | Ret FallThrough =>
          request_loop srv url max_retries rest self
      | Raise e => (self, Raise e)
      end
  end.

(** [range(n)] *)
Definition range (n : Z) : list Z := map Z.of_nat (seq 0 (Z.to_nat n)).

Definition rate_limited_request (srv : server) (url : string) (max_retries : Z)
    (self : RobloxAPI) : RobloxAPI * res (option json) :=
  let self := ensure_session self in
  request_loop srv url max_retries (range max_retries) self.

(** *** get_user_profile *)

(** The items of a decoded JSON object, looked up by key. *)
Fixpoint obj_lookup (key : string) (l : list (string * json)) : option json :=
  match l with
  | [] => None
  | (k, v) :: l' => if String.eqb key k then Some v else obj_lookup key l'
  end.

(** [d.get(key)] *)
Definition json_get (d : json) (key : string) : res json :=
  match d with
  | JObj l => Ret (default JNull (obj_lookup key l))
  | _ => Raise AttributeError
  end.

Definition json_truthy (v : json) : bool :=
  match v with
  | JNull => false
  | JBool b => b
  | JNum z => negb (z =? 0)
  | JStr s => negb (String.eqb s "")
  | JArr l => negb (len l =? 0)
  | JObj l => negb (len l =? 0)
  end.

(** [len(v)] *)
Definition json_len (v : json) : res Z :=
  match v with
  | JStr s => Ret (strlen s)
  | JArr l => Ret (len l)
  | JObj l => Ret (len l)
  | _ => Raise TypeError
  end.

(** [v[0]] *)
Definition json_first (v : json) : res json :=
  match v with
  | JArr (x :: _) => Ret x
  | JArr [] => Raise IndexError
  | JStr (String c _) => Ret (JStr (String c EmptyString))
  | JStr EmptyString => Raise IndexError
  | JObj _ => Raise KeyError
  | _ => Raise TypeError
  end.

(** [v[key]] for a string key *)
Definition json_item (v : json) (key : string) : res json :=
  match v with
  | JObj l =>
      match obj_lookup key l with
      | Some x => Ret x
      | None => Raise KeyError
      end
  | _ => Raise TypeError
  end.

Section Profile.
(** [str(user_id)], as the f-string of the URL formats it. *)
Variable str_of_json : json -> string.

Definition get_user_profile_by_id (srv : server) (user_id : json)
    (self : RobloxAPI) : RobloxAPI * res (option json) :=
  let url :=
    String.append (users_url self)
      (String.append "/v1/users/" (str_of_json user_id)) in
  rate_limited_request srv url 3 self.

(** The lines between [data = await response.json()] and the call of
    [get_user_profile_by_id]: the id to look up, if there is one. *)
Definition first_user_id (data : json) : res (option json) :=
  let* found := json_get data "data" in
  if json_truthy found then
    let* n := json_len found in
    if 0 <? n then
      let* first := json_first found in
      let* user_id := json_item first "id" in
      Ret (Some user_id)
    else Ret None
  else Ret None.

(** The block of [async with self.session.post(url, json=payload) as
    response], entered with the reply [status], [body]. *)
Definition profile_response (srv : server) (status : Z) (body : res json)
    (self : RobloxAPI) : RobloxAPI * res (option json) :=
  if status =? 200 then
    (* [data = await response.json()] *)
    let self := suspend self in
    match (let* data := body in first_user_id data) with
    | Raise e => (self, Raise e)
    | Ret (Some user_id) => get_user_profile_by_id srv user_id self
    | Ret None => (self, Ret None)
    end
  else (self, Ret None).

(** The [try] block of [get_user_profile]. *)
Definition get_user_profile_try (srv : server) (url : string)
    (self : RobloxAPI) : RobloxAPI * res (option json) :=
  if session self then
    match srv (sent self) with
    | Broken took e => (dispatch (Posted url) took self, Raise e)
    | Reply took status body =>
        let self := dispatch (Posted url) took self in
        let '(self, r) := profile_response srv status body self in
        (suspend self, r)
    end
  else (self, Ret None).

Definition get_user_profile (srv : server) (username : string)
    (self : RobloxAPI) : RobloxAPI * res (option json) :=
  let url := String.append (users_url self) "/v1/usernames/users" in
  let self := ensure_session self in
  let '(self, r) := get_user_profile_try srv url self in
  match r with
  | Ret v => (self, Ret v)
  | Raise _ => (self, Ret None)
  end.

End Profile.

(** ** config.py *)

(** The analysis settings and the rate limiting settings of
    [ROBLOX_CONFIG]. *)
Record Config : Type := mk_config {
  REQUEST_DELAY : Q;
  MAX_RETRIES : Z;
  MIN_BADGE_COUNT : Z;
  ACCOUNT_AGE_THRESHOLD_DAYS : Z;
  SUSPICIOUS_PATTERNS : list string;
  SUSPICIOUS_BADGE_IDS : list Z;
  LOW_THRESHOLD : Z;
  MEDIUM_THRESHOLD : Z
}.

(** [ROBLOX_CONFIG] when no environment variable is set. *)
Definition ROBLOX_CONFIG_default : Config :=
  {| REQUEST_DELAY := 1;
     MAX_RETRIES := 3;
     MIN_BADGE_COUNT := 40;
     ACCOUNT_AGE_THRESHOLD_DAYS := 120;
     SUSPICIOUS_PATTERNS := ["xyris"; "vqs"; "risen"; "sc"; "dt"; "xraid"];
     SUSPICIOUS_BADGE_IDS :=
       [3057416426456972; 3114670201603542; 3006399776257311;
        268490457371003; 341084106898320; 2724124286915993];
     LOW_THRESHOLD := 40;
     MEDIUM_THRESHOLD := 70 |}.

(** [threat_analyzer.py] imports [ROBLOX_CONFIG] at module level and
    builds its analyser with [ThreatAnalyzer()]: the analyser of a process
    whose configuration is [cfg]. *)
Definition analyzer_of_process (cfg : Config) : ThreatAnalyzer :=
  ThreatAnalyzer_init.

(** ** The claims' own notions *)

(** A string field of a relation record: absent fields read as the empty
    string, as [user.get(key, '')] does. *)
Definition str_field (u : pydict) (key : string) : option string :=
  match default (PStr "") (u !! key) with
  | PStr s => Some s
  | _ => None
  end.

(** A relation record whose username and display name are strings. *)
Definition named_record (u : pydict) : Prop :=
  is_Some (str_field u "name") ∧ is_Some (str_field u "displayName").

(** Does the lower-cased token occur in the lower-cased username or
    display name? *)
Definition token_occurs (u : pydict) (token : string) : bool :=
  match str_field u "name", str_field u "displayName" with
  | Some n, Some d =>
      Str.contains (Str.lower token) (Str.lower n) ||
      Str.contains (Str.lower token) (Str.lower d)
  | _, _ => false
  end.

(** The first token, in list order, that occurs in the record. *)
Definition first_token (tokens : list string) (u : pydict) : option string :=
  List.find (token_occurs u) tokens.

(** The record with its label, when a token occurs in it. *)
Definition labelled (tokens : list string) (u : pydict) : option pydict :=
  (λ token, <["matched_pattern" := PStr (Str.upper token)]> u)
    <$> first_token tokens u.

(** The tokens are written in lower case. *)
Definition lowercase_tokens (tokens : list string) : Prop :=
  Forall (λ t, Str.lower t = t) tokens.

(** Relation records to run the name check on. *)
Definition sample_relations : list pydict :=
  [ <["name" := PStr "XyRiS_sc"]> (<["displayName" := PStr "Bob"]> ∅);
    <["name" := PStr "alice"]> (<["displayName" := PStr "Alice"]> ∅);
    <["name" := PStr "carol"]> (<["displayName" := PStr "the ADT"]> ∅) ].

(** The watch-list entry a badge hits, if any. *)
Definition watched (self : ThreatAnalyzer) (badge : pydict) : option string :=
  watch_list_get (specific_badge_ids self) (get_or_none badge "id").

(** The match entry of one badge. *)
Definition badge_entry (self : ThreatAnalyzer) (badge : pydict)
    : option found_badge :=
  (λ expected,
     {| fb_id := get_or_none badge "id";
        fb_name := default (PStr expected) (badge !! "name");
        fb_description := default (PStr "") (badge !! "description");
        fb_expected_name := expected |}) <$> watched self badge.

(** [min(observed/cap, 1.0) * weight] *)
Definition contribution (observed cap weight : Z) : Q :=
  (Qmin (inject_Z observed / inject_Z cap) 1 * inject_Z weight)%Q.

(** The weighted sum over the seven factors of the weight table. *)
Definition weighted_score (r : analysis_results) : Q :=
  (contribution (len (suspicious_friends r)) 3 2 +
   contribution (len (suspicious_followers r)) 2 1 +
   contribution (len (suspicious_following r)) 2 1 +
   contribution (flag (account_age_flag r)) 1 3 +
   contribution (flag (badge_count_flag r)) 1 2 +
   contribution (len (specific_badges_found r)) 3 2 +
   contribution (flag (avatar_flag r)) 1 1)%Q.

(** No evidence at all, and the account-age flag alone. *)
Definition no_evidence : analysis_results :=
  mk_results [] [] [] false false [] false.
Definition young_account_only : analysis_results :=
  mk_results [] [] [] true false [] false.

(** *** A reader of the canonical date shapes

    The parsers of Python's [datetime] on the strings of the canonical
    shapes: [YYYY-MM-DD] for [strptime(s, '%Y-%m-%d')], and
    [YYYY-MM-DDTHH:MM:SS], with an optional fraction of 3 or 6 digits and
    an optional offset [+HH:MM] or [-HH:MM], for [fromisoformat]. On
    these they answer as every version of the library does; on any other
    string they raise [ValueError] here, where the library, depending on
    its version, reads some further shapes. *)

Definition digit_value (c : ascii) : option Z :=
  if Str.is_digit c then Some (Z.of_nat (nat_of_ascii c) - 48) else None.

(** The number written by the [n] decimal digits at the head of [s],
    after [acc], and the rest of [s]. *)
Fixpoint take_digits (n : nat) (acc : Z) (s : string) : option (Z * string) :=
  match n with
  | O => Some (acc, s)
  | S n' =>
      match s with
      | String c s' =>
          match digit_value c with
          | Some d => take_digits n' (10 * acc + d) s'
          | None => None
          end
      | EmptyString => None
      end
  end.

Definition take_char (c : ascii) (s : string) : option string :=
  match s with
  | String c' s' => if Ascii.eqb c c' then Some s' else None
  | EmptyString => None
  end.

Definition is_leap (y : Z) : bool :=
  (y mod 4 =? 0) && (negb (y mod 100 =? 0) || (y mod 400 =? 0)).

Definition days_in_month (y m : Z) : Z :=
  if m =? 2 then (if is_leap y then 29 else 28)
  else if (m =? 4) || (m =? 6) || (m =? 9) || (m =? 11) then 30
  else 31.

(** The days from 1970-01-01 to the day [d] of the month [m] of the
    year [y] of the proleptic Gregorian calendar. *)
Definition days_from_civil (y m d : Z) : Z :=
  let y := if m <=? 2 then y - 1 else y in
  let era := y / 400 in
  let yoe := y - era * 400 in
  let mp := (m + 9) mod 12 in
  let doy := (153 * mp + 2) / 5 + d - 1 in
  let doe := yoe * 365 + yoe / 4 - yoe / 100 + doy in
  era * 146097 + doe - 719468.

(** [YYYY-MM-DD] at the head of [s]: the day and the rest of [s]. *)
Definition take_date (s : string) : option (Z * string) :=
  '(y, s) ← take_digits 4 0 s;
  s ← take_char "-" s;
  '(m, s) ← take_digits 2 0 s;
  s ← take_char "-" s;
  '(d, s) ← take_digits 2 0 s;
  if (1 <=? y) && (1 <=? m) && (m <=? 12) && (1 <=? d)
     && (d <=? days_in_month y m)
  then Some (days_from_civil y m d, s)
  else None.

(** [HH:MM:SS] at the head of [s]: the seconds since midnight. *)
Definition take_clock (s : string) : option (Z * string) :=
  '(h, s) ← take_digits 2 0 s;
  s ← take_char ":" s;
  '(mi, s) ← take_digits 2 0 s;
  s ← take_char ":" s;
  '(sec, s) ← take_digits 2 0 s;
  if (h <? 24) && (mi <? 60) && (sec <? 60)
  then Some (h * 3600 + mi * 60 + sec, s)
  else None.

(** An optional fraction [.fff] or [.ffffff] at the head of [s], in
    microseconds. *)
Definition take_fraction (s : string) : option (Z * string) :=
  match take_char "." s with
  | None => Some (0, s)
  | Some s' =>
      match take_digits 6 0 s' with
      | Some r => Some r
      | None =>
          '(ms, s'') ← take_digits 3 0 s';
          Some (ms * 1000, s'')
      end
  end.

(** The offset [+HH:MM] or [-HH:MM] that ends the string, in seconds, or
    no offset. *)
Definition read_offset (s : string) : option (option Z) :=
  match s with
  | EmptyString => Some None
  | String sign s' =>
      if Ascii.eqb sign "+" || Ascii.eqb sign "-" then
        '(h, s') ← take_digits 2 0 s';
        s' ← take_char ":" s';
        '(mi, s') ← take_digits 2 0 s';
        if String.eqb s' "" && (h <? 24) && (mi <? 60)
        then Some (Some ((if Ascii.eqb sign "-" then -1 else 1)
                         * (h * 3600 + mi * 60)))
        else None
      else None
  end.

Definition read_isoformat (s : string) : option datetime :=
  '(days, s) ← take_date s;
  s ← take_char "T" s;
  '(secs, s) ← take_clock s;
  '(us, s) ← take_fraction s;
  tz ← read_offset s;
  Some {| dt_micros := days * micros_per_day + secs * 1000000 + us;
          dt_tzinfo := tz |}.

Definition read_ymd (s : string) : option datetime :=
  '(days, s) ← take_date s;
  if String.eqb s ""
  then Some {| dt_micros := days * micros_per_day; dt_tzinfo := None |}
  else None.

Definition canonical_datetime_lib : DatetimeLib :=
  {| fromisoformat s :=
       match read_isoformat s with
       | Some dt => Ret dt
       | None => Raise ValueError
       end;
     strptime_ymd s :=
       match read_ymd s with
       | Some dt => Ret dt
       | None => Raise ValueError
       end |}.

(** The reading of a naive clock at midnight of a day. *)
Definition midnight (y m d : Z) : datetime :=
  {| dt_micros := days_from_civil y m d * micros_per_day; dt_tzinfo := None |}.

(** The instant of a creation timestamp, in microseconds of UTC: an aware
    reading is by its offset ahead of UTC, a naive one by the offset
    [local] (in seconds) of the zone the process runs in. *)
Definition instant (local : Z) (dt : datetime) : Z :=
  dt_micros dt - 1000000 * default local (dt_tzinfo dt).

(** The account-age flag as the specification words it: the creation
    instant is strictly more recent than now minus 120 days, [now] being
    the naive reading of [datetime.now()] in the zone of the process. *)
Definition strictly_more_recent (local : Z) (now created : datetime) : bool :=
  dt_micros now - 1000000 * local - 120 * micros_per_day
  <? instant local created.

(** A naive reading [d] days after the epoch. *)
Definition day (d : Z) : datetime :=
  {| dt_micros := d * micros_per_day; dt_tzinfo := None |}.

(** The character map the normalisation amounts to. *)
Definition leet_char (c : ascii) : ascii :=
  if Ascii.eqb c "0" then "o"
  else if Ascii.eqb c "1" then "l"
  else if Ascii.eqb c "3" then "e"
  else if Ascii.eqb c "4" then "a"
  else if Ascii.eqb c "5" then "s"
  else if Ascii.eqb c "7" then "t"
  else if Ascii.eqb c "8" then "b"
  else if Ascii.eqb c "@" then "a"
  else c.

(** Positional matches of two strings. *)
Fixpoint positional_matches (a b : string) : Z :=
  match a, b with
  | String x a', String y b' =>
      (if Ascii.eqb x y then 1 else 0) + positional_matches a' b'
  | _, _ => 0
  end.

(** The waits of the exponential backoff, in the order they were made. *)
Definition backoffs (tr : list event) : list Z :=
  omap (λ ev, match ev with SleptBackoff w => Some w | _ => None end) tr.

(** A remote end that throttles every request. *)
Definition throttles (srv : server) : Prop :=
  ∀ n, ∃ took body, srv n = Reply took 429 body.

(** A reply that hands the caller its data: status 200 with a body that
    decodes. *)
Definition is_success (r : reply) : bool :=
  match r with
  | Reply _ status (Ret _) => status =? 200
  | _ => false
  end.

(** A server that answers 429 to everything, at once. *)
Definition always_429 : server := λ _, Reply 0 429 (Ret JNull).

(** A server that answers 404 to everything, at once. *)
Definition always_404 : server := λ _, Reply 0 404 (Ret JNull).

(** A server that throttles the first request, answers 500 to the second
    and would serve the third. *)
Definition throttled_then_500 : server :=
  λ n, match n with
       | O => Reply 0 429 (Ret JNull)
       | S O => Reply 0 500 (Ret JNull)
       | _ => Reply 0 200 (Ret (JObj []))
       end.

(** A naive reading [us] microseconds after day [d]. *)
Definition day_plus (d us : Z) : datetime :=
  {| dt_micros := d * micros_per_day + us; dt_tzinfo := None |}.

(** A relation record with its creation date attached, as [main.py]
    builds it. *)
Definition friend_created (name : string) (created : pyval) : pydict :=
  <["name" := PStr name]> (<["created_date" := created]> ∅).

(** The creation-date check as the comment in the code words it:
    "created within 7 days of each other". *)
Definition within_seven_days (a b : datetime) : bool :=
  Z.abs (dt_micros a - dt_micros b) <=? 7 * micros_per_day.

(** The grouping as the specification words it: an alphabetic prefix
    followed by a trailing integer, [^([a-z]+)(\d+)$]. *)
Definition is_alpha (c : ascii) : bool := Str.is_lower c || Str.is_upper c.

Fixpoint alphabetic_split_from (base rest : string) : option (string * string) :=
  match rest with
  | EmptyString => None
  | String c rest' =>
      if is_alpha c
      then alphabetic_split_from (String.append base (String c EmptyString)) rest'
      else if negb (String.eqb base "") && digits_to_end rest
           then Some (base, leading_digits rest)
           else None
  end.

Definition alphabetic_split (s : string) : option (string * string) :=
  alphabetic_split_from "" s.

(** *** The sequential-numbering detector in the words of the claim *)

Fixpoint all_digits (s : string) : bool :=
  match s with
  | EmptyString => true
  | String c s' => Str.is_digit c && all_digits s'
  end.

(** What it is for the pattern [^(.+?)(\d+)$] to split [s] into [base]
    and [digits]: [s] is [base], then [digits], then nothing or one last
    line feed; [base] is not empty and has no line feed; [digits] is a run
    of one or more decimal digits; and [base] is as short as it can be,
    that is, one character long or not ending in a digit. *)
Definition trailing_number_split (s base digits : string) : Prop :=
  (s = String.append base digits ∨
   s = String.append base (String.append digits (String newline EmptyString))) ∧
  base ≠ "" ∧ Str.mem_char newline base = false ∧
  digits ≠ "" ∧ all_digits digits = true ∧
  (∀ b c, base = String.append b (String c EmptyString) →
     b = "" ∨ Str.is_digit c = false).

(** The base and the number of a username: the split of its lower-cased
    form, the digits read as an integer. *)
Definition base_and_number (username : string) : option (string * Z) :=
  match re_match_base_number (Str.lower username) with
  | Some (base, digits) => Some (base, int_of_digits digits)
  | None => None
  end.

(** The members of the group of [base]: the usernames of the list with
    that base, in the order of the list, each with its number. *)
Definition members (usernames : list string) (base : string)
    : list (string * Z) :=
  omap (λ username,
          match base_and_number username with
          | Some (b, n) =>
              if String.eqb b base then Some (username, n) else None
          | None => None
          end) usernames.

(** The pattern reported for a group of [base], its members sorted. *)
Definition sequential_report (base : string) (sorted : list (string * Z))
    : name_pattern :=
  {| np_type := "Sequential Numbers";
     np_pattern := String.append base "[numbers]";
     np_usernames := map fst sorted;
     np_description :=
       String.append "Sequential numbering pattern: "
         (Str.join ", " (map fst sorted)) |}.

(** The list stored under a key of a [defaultdict(list)], empty when the
    key is not there. *)
Fixpoint group_of {V : Type} (key : string) (groups : list (string * list V))
    : list V :=
  match groups with
  | [] => []
  | (k, vs) :: groups' =>
      if String.eqb key k then vs else group_of key groups'
  end.

(** Every consecutive gap of a list of numbers is at most 3. *)
Definition gaps_at_most_3 (numbers : list Z) : Prop :=
  ∀ (i : nat) (a b : Z),
    numbers !! i = Some a → numbers !! S i = Some b → b - a <= 3.

(** A list of (username, number) pairs in ascending order of number. *)
Definition ascending (l : list (string * Z)) : Prop :=
  ∀ (i : nat) (x y : string * Z),
    l !! i = Some x → l !! S i = Some y → snd x <= snd y.

(** Users with the given names. *)
Definition users_named (names : list string) : list pydict :=
  map (λ n, <["name" := PStr n]> ∅) names.

(** The checks as the configuration surface describes them: each reads
    its setting from the configuration. *)
Definition configured_badge_count_flag (cfg : Config) (badges_list : list pydict)
    : bool :=
  len badges_list <? MIN_BADGE_COUNT cfg.

Definition configured_account_age_flag (cfg : Config) (now created : datetime)
    : bool :=
  dt_micros now - timedelta_days (ACCOUNT_AGE_THRESHOLD_DAYS cfg)
  <? dt_micros created.

Definition configured_verdict (cfg : Config) (percentage : Q) : string :=
  if Qle_bool (inject_Z (MEDIUM_THRESHOLD cfg)) percentage then "High"
  else if Qle_bool (inject_Z (LOW_THRESHOLD cfg)) percentage then "Medium"
  else "Low".

(** A configuration with every analysis setting overridden. *)
Definition overridden_config : Config :=
  {| REQUEST_DELAY := 1;
     MAX_RETRIES := 3;
     MIN_BADGE_COUNT := 10;
     ACCOUNT_AGE_THRESHOLD_DAYS := 30;
     SUSPICIOUS_PATTERNS := ["clan"];
     SUSPICIOUS_BADGE_IDS := [1];
     LOW_THRESHOLD := 10;
     MEDIUM_THRESHOLD := 20 |}.

(** Twenty badges without fields. *)
Definition twenty_badges : list pydict := repeat ∅ 20.

(** The score in sixths of a weight unit: every contribution is a
    multiple of 1/6. *)
Definition score_sixths (r : analysis_results) : Z :=
  4 * Z.min (len (suspicious_friends r)) 3 +
  3 * Z.min (len (suspicious_followers r)) 2 +
  3 * Z.min (len (suspicious_following r)) 2 +
  18 * flag (account_age_flag r) +
  12 * flag (badge_count_flag r) +
  4 * Z.min (len (specific_badges_found r)) 3 +
  6 * flag (avatar_flag r).

(** A remote end whose transport fails on every request. *)
Definition unreachable (srv : server) : Prop :=
  ∀ n, ∃ took e, srv n = Broken took e.

(** A server no request reaches. *)
Definition always_broken : server := λ _, Broken 0 ClientError.

(** A server that answers 200 with an empty object to everything. *)
Definition always_ok : server := λ _, Reply 0 200 (Ret (JObj [])).

(** The pauses after a transport failure, in the order they were made. *)
Definition pauses (tr : list event) : list Z :=
  omap (λ ev, match ev with SleptPause d => Some d | _ => None end) tr.

(** ** RobloxAPI: the accessors built on the request *)

(** [__init__] sets the hosts once; nothing assigns them afterwards. *)
Definition badges_url : string := "https://badges.roblox.com".
Definition avatar_url : string := "https://avatar.roblox.com".
Definition friends_url : string := "https://friends.roblox.com".
Definition groups_url : string := "https://groups.roblox.com".

(** [v == s] for a string [s] *)
Definition json_is_str (v : json) (s : string) : bool :=
  match v with
  | JStr t => String.eqb t s
  | _ => false
  end.

(** [key in data] for a string [key]: a key of an object, an element of
    an array, a substring of a string; nothing else is iterable. *)
Definition json_contains (key : string) (data : json) : res bool :=
  match data with
  | JObj l =>
      Ret (match obj_lookup key l with Some _ => true | None => false end)
  | JArr l => Ret (existsb (fun x => json_is_str x key) l)
  | JStr s => Ret (Str.contains key s)
  | _ => Raise TypeError
  end.

Fixpoint str_chars (s : string) : list json :=
  match s with
  | EmptyString => []
  | String c s' => JStr (String c EmptyString) :: str_chars s'
  end.

(** The values [for x in v] goes through: the elements of an array, the
    characters of a string, the keys of an object. *)
Definition json_iter (v : json) : res (list json) :=
  match v with
  | JArr l => Ret l
  | JStr s => Ret (str_chars s)
  | JObj l => Ret (map (fun kv => JStr (fst kv)) l)
  | _ => Raise TypeError
  end.

(** [d.get(key, dflt)] *)
Definition json_get_default (d : json) (key : string) (dflt : json) : res json :=
  match d with
  | JObj l => Ret (default dflt (obj_lookup key l))
  | _ => Raise AttributeError
  end.

(** [if data and key in data: return data[key]] and the [return []]
    after it. *)
Definition field_or_empty (key : string) (data : option json) : res json :=
  match data with
  | Some d =>
      if json_truthy d then
        let* found := json_contains key d in
        if found then json_item d key else Ret (JArr [])
      else Ret (JArr [])
  | None => Ret (JArr [])
  end.

(** What is left of one turn of the page loop of [get_user_badges] after
    the request: the badges so far and the cursor to go on with, [None]
    after a [break]. *)
Definition badges_page (data : option json) (all_badges : list json)
    : res (list json * option json) :=
  match data with
  | None => Ret (all_badges, None)
  | Some d =>
      if negb (json_truthy d) then Ret (all_badges, None)
      else
        let* has_data := json_contains "data" d in
        if negb has_data then Ret (all_badges, None)
        else
          let* page := json_item d "data" in
          let* items := json_iter page in
          let all_badges := (all_badges ++ items)%list in
          let* has_next := json_contains "nextPageCursor" d in
          if negb has_next then Ret (all_badges, None)
          else
            let* next := json_item d "nextPageCursor" in
            if negb (json_truthy next) then Ret (all_badges, None)
            else Ret (all_badges, Some next)
  end.

Section Gateways.
(** [str(x)], as the f-string of the URL and the query string format
    it. *)
Variable str_of_json : json -> string.

(** The URL with the [params] of the request as its query string, as
    the HTTP library writes it. *)
Variable with_params : string -> list (string * json) -> string.

Definition get_user_friends (srv : server) (user_id : json) (limit : Z)
    (self : RobloxAPI) : RobloxAPI * res json :=
  let url :=
    String.append friends_url
      (String.append "/v1/users/"
         (String.append (str_of_json user_id) "/friends")) in
  let '(self, r) := rate_limited_request srv url 3 self in
  (self, let* data := r in field_or_empty "data" data).

Definition get_user_followers (srv : server) (user_id : json) (limit : Z)
    (self : RobloxAPI) : RobloxAPI * res json :=
  let url :=
    String.append friends_url
      (String.append "/v1/users/"
         (String.append (str_of_json user_id) "/followers")) in
  let params := [("limit", JNum (Z.min limit 100))] in
  let '(self, r) := rate_limited_request srv (with_params url params) 3 self in
  (self, let* data := r in field_or_empty "data" data).

Definition get_user_following (srv : server) (user_id : json) (limit : Z)
    (self : RobloxAPI) : RobloxAPI * res json :=
  let url :=
    String.append friends_url
      (String.append "/v1/users/"
         (String.append (str_of_json user_id) "/followings")) in
  let params := [("limit", JNum (Z.min limit 100))] in
  let '(self, r) := rate_limited_request srv (with_params url params) 3 self in
  (self, let* data := r in field_or_empty "data" data).

(** [for page in range(max_pages)] of [get_user_badges]. *)
Fixpoint badges_loop (srv : server) (user_id : json) (pages : list Z)
    (cursor : json) (all_badges : list json) (self : RobloxAPI)
    : RobloxAPI * res (list json) :=
  match pages with
  | [] => (self, Ret all_badges)
  | _ :: rest =>
      let url :=
        String.append badges_url
          (String.append "/v1/users/"
             (String.append (str_of_json user_id) "/badges")) in
      let params :=
        if json_truthy cursor
        then [("limit", JNum 100); ("cursor", cursor)]
        else [("limit", JNum 100)] in
      let '(self, r) :=
        rate_limited_request srv (with_params url params) 3 self in
      match (let* data := r in badges_page data all_badges) with
      | Raise e => (self, Raise e)
      | Ret (all_badges, Some cursor) =>
          badges_loop srv user_id rest cursor all_badges self
      | Ret (all_badges, None) => (self, Ret all_badges)
      end
  end.

Definition get_user_badges (srv : server) (user_id : json)
    (self : RobloxAPI) : RobloxAPI * res (list json) :=
  let max_pages := 5 in
  badges_loop srv user_id (range max_pages) (JStr "") [] self.

Definition get_user_avatar (srv : server) (user_id : json)
    (self : RobloxAPI) : RobloxAPI * res json :=
  let url :=
    String.append avatar_url
      (String.append "/v1/users/"
         (String.append (str_of_json user_id) "/avatar")) in
  let '(self, r) := rate_limited_request srv url 3 self in
  (self, let* data := r in field_or_empty "assets" data).

Definition get_user_groups (srv : server) (user_id : json)
    (self : RobloxAPI) : RobloxAPI * res json :=
  let url :=
    String.append groups_url
      (String.append "/v2/users/"
         (String.append (str_of_json user_id) "/groups/roles")) in
  let '(self, r) := rate_limited_request srv url 3 self in
  (self, let* data := r in field_or_empty "data" data).

End Gateways.

(** ** ThreatAnalyzer.check_default_avatar *)

(** [for item in avatar_items]: the count of the items whose asset type
    is not one of the three basic ones. *)
Fixpoint paid_items_loop (items : list json) (paid_items : Z) : res Z :=
  match items with
  | [] => Ret paid_items
  | item :: rest =>
      let* asset := json_get_default item "assetType" (JObj []) in
      let* asset_type := json_get_default asset "name" (JStr "") in
      if negb (existsb (json_is_str asset_type) ["Shirt"; "Pants"; "TShirt"])
      then paid_items_loop rest (paid_items + 1)
      else paid_items_loop rest paid_items
  end.

Definition check_default_avatar (self : ThreatAnalyzer) (avatar_items : json)
    : res bool :=
  if negb (json_truthy avatar_items) then Ret true
  else
    let* total_items := json_len avatar_items in
    let* items := json_iter avatar_items in
    let* paid_items := paid_items_loop items 0 in
    Ret ((total_items <? 5) || (paid_items <? 2)).

(** ** Notions for the accessors and the avatar check *)

(** The badges a reply carries: the [data] array of a decodable 200
    reply with an object body. *)
Definition reply_items (r : reply) : list json :=
  match r with
  | Reply _ 200 (Ret (JObj l)) =>
      match obj_lookup "data" l with
      | Some (JArr items) => items
      | _ => []
      end
  | _ => []
  end.

(** A reply that is one page of badges: status 200, an object with a
    [data] array. *)
Definition badge_page_reply (r : reply) : Prop :=
  ∃ took l items,
    r = Reply took 200 (Ret (JObj l)) ∧
    obj_lookup "data" l = Some (JArr items).

(** Does the page say that another one follows? *)
Definition has_next_page (r : reply) : bool :=
  match r with
  | Reply _ 200 (Ret (JObj l)) =>
      match obj_lookup "nextPageCursor" l with
      | Some next => json_truthy next
      | None => false
      end
  | _ => false
  end.

(** The badges [get_user_badges] is to collect from the replies [n],
    [n + 1], ... when it may still read [pages] pages: the page, and the
    following ones while the page names a next one. *)
Fixpoint expected_badges (srv : server) (n pages : nat) : list json :=
  match pages with
  | O => []
  | S pages' =>
      (reply_items (srv n) ++
       if has_next_page (srv n) then expected_badges srv (S n) pages'
       else [])%list
  end.

(** The pages it reads for that. *)
Fixpoint expected_pages (srv : server) (n pages : nat) : nat :=
  match pages with
  | O => O
  | S pages' =>
      S (if has_next_page (srv n) then expected_pages srv (S n) pages'
         else O)
  end.

(** The name of the asset type of an avatar item, when the item is an
    object whose [assetType], if any, is an object. *)
Definition asset_type_name (item : json) : option json :=
  match item with
  | JObj l =>
      match default (JObj []) (obj_lookup "assetType" l) with
      | JObj t => Some (default (JStr "") (obj_lookup "name" t))
      | _ => None
      end
  | _ => None
  end.

(** Is the item counted as a paid one? *)
Definition counts_as_paid (item : json) : bool :=
  match asset_type_name item with
  | Some name => negb (existsb (json_is_str name) ["Shirt"; "Pants"; "TShirt"])
  | None => false
  end.

(** A server that serves a badge page of [n] badges with a cursor to
    every request. *)
Definition endless_pages (n : nat) : server :=
  λ _, Reply 0 200
         (Ret (JObj [("data", JArr (repeat (JObj []) n));
                     ("nextPageCursor", JStr "more")])).

(** A server whose body is always the number 7. *)
Definition always_seven : server := λ _, Reply 0 200 (Ret (JNum 7)).

(** What an accessor is to make of the body of a 200 reply, for a key
    that is not empty: the member of an object, or the empty list when the
    object has none or the body is empty, null, zero or false; any other
    number or [true] cannot be searched, and an array or a string that
    holds the key cannot be indexed by it. *)
Definition expected_field (key : string) (body : json) : res json :=
  match body with
  | JObj l => Ret (default (JArr []) (obj_lookup key l))
  | JArr l =>
      if existsb (fun x => json_is_str x key) l then Raise TypeError
      else Ret (JArr [])
  | JStr s =>
      if negb (String.eqb s "") && Str.contains key s then Raise TypeError
      else Ret (JArr [])
  | JNum z => if z =? 0 then Ret (JArr []) else Raise TypeError
  | JBool b => if b then Raise TypeError else Ret (JArr [])
  | JNull => Ret (JArr [])
  end.

(** * Properties *)


(** ** check_suspicious_names *)

Section SuspiciousNames.
Variable self : ThreatAnalyzer.
Hypothesis Hlower : lowercase_tokens (suspicious_patterns self).

Lemma get_lower_str_field (u : pydict) (key s : string) :
  str_field u key = Some s → get_lower u key = Ret (Str.lower s).
Proof.
  unfold str_field, get_lower.
  destruct (default (PStr "") (u !! key)); intros Heq; by simplify_eq.
Qed.

Lemma match_first_pattern_find (u : pydict) (n d : string) (tokens : list string) :
  match_first_pattern u n d tokens =
  (λ token, <["matched_pattern" := PStr (Str.upper token)]> u)
    <$> List.find (λ p, Str.contains p n || Str.contains p d) tokens.
Proof.
  induction tokens as [|p tokens IH]; simpl; [done|].
  destruct (Str.contains p n || Str.contains p d); [done|apply IH].
Qed.

Lemma find_token_occurs (u : pydict) (n d : string) (tokens : list string) :
  lowercase_tokens tokens →
  str_field u "name" = Some n → str_field u "displayName" = Some d →
  List.find (λ p, Str.contains p (Str.lower n) || Str.contains p (Str.lower d))
    tokens = first_token tokens u.
Proof.
  intros Hl Hn Hd. unfold first_token.
  induction Hl as [|p tokens Hp _ IH]; simpl; [done|].
  unfold token_occurs at 1. rewrite Hn, Hd, Hp.
  destruct (Str.contains p (Str.lower n) || Str.contains p (Str.lower d));
    [done|apply IH].
Qed.

Lemma suspicious_names_loop_omap (users acc : list pydict) :
  Forall named_record users →
  suspicious_names_loop self users acc =
  Ret (acc ++ omap (labelled (suspicious_patterns self)) users)%list.
Proof.
  intros Hwf. revert acc.
  induction Hwf as [|u users [[n Hn] [d Hd]] _ IH]; intros acc; simpl.
  { by rewrite app_nil_r. }
  rewrite (get_lower_str_field _ _ _ Hn), (get_lower_str_field _ _ _ Hd).
  simpl. rewrite match_first_pattern_find.
  rewrite (find_token_occurs u n d _ Hlower Hn Hd).
  assert (Hlab : labelled (suspicious_patterns self) u =
            (λ token, <["matched_pattern" := PStr (Str.upper token)]> u)
              <$> first_token (suspicious_patterns self) u) by done.
  destruct (first_token (suspicious_patterns self) u) as [p|];
    simpl in Hlab |- *; rewrite Hlab.
  - rewrite IH. by rewrite <- app_assoc.
  - apply IH.
Qed.

End SuspiciousNames.

Lemma first_token_occurs (tokens : list string) (u : pydict) (p : string) :
  first_token tokens u = Some p →
  p ∈ tokens ∧ token_occurs u p = true ∧
  ∃ before after, tokens = (before ++ p :: after)%list ∧
    Forall (λ q, token_occurs u q = false) before.
Proof.
  unfold first_token. induction tokens as [|q tokens IH]; simpl; [done|].
  destruct (token_occurs u q) eqn:Hq.
  - intros [= ->]. split; [left|]. split; [done|].
    exists [], tokens. by split.
  - intros Hf. destruct (IH Hf) as (Hin & Hocc & before & after & -> & Hb).
    split; [by right|]. split; [done|].
    exists (q :: before), after. split; [done|]. by constructor.
Qed.

(** C2: on records whose names are strings, [check_suspicious_names]
    returns the input records that contain a token, in order, each once
    and each with exactly one [matched_pattern], the upper-cased first
    token (in list order) occurring in its lower-cased username or
    display name; a record containing no token yields no entry. *)
Theorem C2_suspicious_names_first_token (self : ThreatAnalyzer)
    (users : list pydict) :
  lowercase_tokens (suspicious_patterns self) →
  Forall named_record users →
  let tokens := suspicious_patterns self in
  ∃ out,
    check_suspicious_names self users = Ret out ∧
    out = omap (labelled tokens) users ∧
    (∀ u, labelled tokens u = None ↔ Forall (λ q, token_occurs u q = false) tokens) ∧
    (∀ o, o ∈ out →
       ∃ u p before after,
         u ∈ users ∧ o = <["matched_pattern" := PStr (Str.upper p)]> u ∧
         o !! "matched_pattern" = Some (PStr (Str.upper p)) ∧
         tokens = (before ++ p :: after)%list ∧ token_occurs u p = true ∧
         Forall (λ q, token_occurs u q = false) before) ∧
    length out = length (filter (λ u, is_Some (first_token tokens u)) users).
Proof.
  intros Hl Hwf tokens.
  exists (omap (labelled tokens) users).
  split; [|split; [done|split; [|split]]].
  - unfold check_suspicious_names.
    by rewrite (suspicious_names_loop_omap self Hl users [] Hwf).
  - intros u. unfold labelled, first_token.
    destruct (List.find (token_occurs u) tokens) as [p|] eqn:Hf; simpl.
    + split; [done|]. intros Hall.
      apply List.find_some in Hf as [Hin Hocc].
      rewrite Forall_forall in Hall.
      apply list_elem_of_In in Hin. specialize (Hall p Hin). congruence.
    + split; [|done]. intros _. apply Forall_forall. intros q Hq.
      apply list_elem_of_In in Hq.
      destruct (token_occurs u q) eqn:E; [|done].
      by rewrite (List.find_none _ _ Hf q Hq) in E.
  - intros o Ho. apply list_elem_of_omap in Ho as (u & Hu & Hlab).
    unfold labelled in Hlab.
    destruct (first_token tokens u) as [p|] eqn:Hf; simplify_eq/=.
    destruct (first_token_occurs _ _ _ Hf) as (_ & Hocc & before & after & Ht & Hb).
    exists u, p, before, after. repeat split; try done.
    by rewrite lookup_insert_eq.
  - clear Hwf. induction users as [|u users IH]; [done|].
    rewrite filter_cons. simpl. unfold labelled at 1.
    destruct (first_token tokens u) as [p|]; simpl.
    + f_equal. apply IH.
    + apply IH.
Qed.

(** The witness of C2: the default analyser on three relation records. *)
Lemma C2_suspicious_names_witness :
  ∃ out,
    check_suspicious_names ThreatAnalyzer_init sample_relations = Ret out ∧
    length out = 2%nat.
Proof.
  assert (Hl : lowercase_tokens (suspicious_patterns ThreatAnalyzer_init)).
  { repeat constructor. }
  assert (Hwf : Forall named_record sample_relations).
  { repeat constructor; vm_compute; eauto. }
  destruct (C2_suspicious_names_first_token ThreatAnalyzer_init
              sample_relations Hl Hwf) as (out & Hout & Heq & _ & _ & Hlen).
  exists out. split; [exact Hout|]. rewrite Heq. vm_compute. reflexivity.
Defined.

(** ** check_specific_badges *)

Lemma specific_badges_loop_omap (self : ThreatAnalyzer)
    (badges : list pydict) (acc : list found_badge) :
  specific_badges_loop self badges acc = (acc ++ omap (badge_entry self) badges)%list.
Proof.
  revert acc. induction badges as [|b badges IH]; intros acc; simpl.
  { by rewrite app_nil_r. }
  assert (Hentry : badge_entry self b =
            (λ expected,
               {| fb_id := get_or_none b "id";
                  fb_name := default (PStr expected) (b !! "name");
                  fb_description := default (PStr "") (b !! "description");
                  fb_expected_name := expected |}) <$> watched self b) by done.
  unfold watched in Hentry.
  destruct (watch_list_get (specific_badge_ids self) (get_or_none b "id"))
    as [expected|]; simpl in Hentry; rewrite Hentry.
  - rewrite IH. by rewrite <- app_assoc.
  - apply IH.
Qed.

Lemma watched_Some (self : ThreatAnalyzer) (b : pydict) (expected : string) :
  watched self b = Some expected ↔
  ∃ z, b !! "id" = Some (PInt z) ∧ specific_badge_ids self !! z = Some expected.
Proof.
  unfold watched, get_or_none, watch_list_get. split.
  - destruct (b !! "id") as [[| |z|]|]; simpl; try done. eauto.
  - intros (z & -> & Hz). done.
Qed.

(** C6: [check_specific_badges] returns one entry per badge whose id is a
    key of the watch list, in order; the entry's [expected_name] is the
    watch list's name for that id whatever the badge's own [name] is; a
    badge whose id is not in the watch list gives no entry. *)
Theorem C6_specific_badges_expected_name (self : ThreatAnalyzer)
    (badges : list pydict) :
  check_specific_badges self badges = omap (badge_entry self) badges ∧
  (∀ e, e ∈ check_specific_badges self badges ↔
     ∃ b z expected,
       b ∈ badges ∧ b !! "id" = Some (PInt z) ∧
       specific_badge_ids self !! z = Some expected ∧
       e = {| fb_id := PInt z;
              fb_name := default (PStr expected) (b !! "name");
              fb_description := default (PStr "") (b !! "description");
              fb_expected_name := expected |}) ∧
  (∀ b live_name,
     fb_expected_name <$> badge_entry self (<["name" := live_name]> b) =
     fb_expected_name <$> badge_entry self b) ∧
  (∀ b, badge_entry self b = None ↔
     ¬ ∃ z, b !! "id" = Some (PInt z) ∧ is_Some (specific_badge_ids self !! z)) ∧
  length (check_specific_badges self badges) =
  length (filter (λ b, is_Some (watched self b)) badges).
Proof.
  assert (Heq : check_specific_badges self badges = omap (badge_entry self) badges).
  { unfold check_specific_badges. by rewrite specific_badges_loop_omap. }
  split; [exact Heq|]. rewrite Heq. split; [|split; [|split]].
  - intros e. rewrite list_elem_of_omap. split.
    + intros (b & Hb & He). unfold badge_entry in He.
      destruct (watched self b) as [expected|] eqn:Hw; simplify_eq/=.
      apply watched_Some in Hw as (z & Hid & Hz).
      exists b, z, expected. repeat split; try done.
      unfold get_or_none. by rewrite Hid.
    + intros (b & z & expected & Hb & Hid & Hz & ->).
      exists b. split; [done|]. unfold badge_entry.
      rewrite (proj2 (watched_Some self b expected)) by eauto.
      simpl. unfold get_or_none. by rewrite Hid.
  - intros b live_name. unfold badge_entry, watched, get_or_none.
    rewrite lookup_insert_ne by done.
    by destruct (watch_list_get _ _).
  - intros b. unfold badge_entry.
    destruct (watched self b) as [expected|] eqn:Hw; simpl.
    + split; [done|]. intros Hno. exfalso. apply Hno.
      apply watched_Some in Hw as (z & Hid & Hz). eauto.
    + split; [|done]. intros _ (z & Hid & [expected Hz]).
      assert (watched self b = Some expected) by (apply watched_Some; eauto).
      congruence.
  - clear Heq. induction badges as [|b badges IH]; [done|].
    rewrite filter_cons.
    assert (Hentry : badge_entry self b =
              (λ expected,
                 {| fb_id := get_or_none b "id";
                    fb_name := default (PStr expected) (b !! "name");
                    fb_description := default (PStr "") (b !! "description");
                    fb_expected_name := expected |}) <$> watched self b) by done.
    destruct (watched self b) as [expected|];
      simpl in Hentry |- *; rewrite Hentry; simpl; [f_equal|]; apply IH.
Qed.

(** ** calculate_threat_level *)

Lemma py_min_Qmin (a b : Q) : (py_min a b == Qmin a b)%Q.
Proof.
  unfold py_min. destruct (Qle_bool a b) eqn:E.
  - apply Qle_bool_iff in E. symmetry. by apply Q.min_l.
  - symmetry. apply Q.min_r. apply Qlt_le_weak, Qnot_le_lt.
    intros Hle. apply Qle_bool_iff in Hle. congruence.
Qed.

Lemma factor_score_contribution (count max_count weight : Z) :
  (py_min (inject_Z count / inject_Z max_count) 1 * inject_Z weight
   == contribution count max_count weight)%Q.
Proof. unfold contribution. by rewrite py_min_Qmin. Qed.

Lemma threat_percentage_weighted (r : analysis_results) :
  (threat_percentage r == weighted_score r / 12 * 100)%Q.
Proof.
  unfold threat_percentage.
  assert (Hfold : fold_left factor_step (factors r) (0%Q, 0) =
    ((0 + py_min (inject_Z (len (suspicious_friends r)) / inject_Z 3) 1 * inject_Z 2
        + py_min (inject_Z (len (suspicious_followers r)) / inject_Z 2) 1 * inject_Z 1
        + py_min (inject_Z (len (suspicious_following r)) / inject_Z 2) 1 * inject_Z 1
        + py_min (inject_Z (flag (account_age_flag r)) / inject_Z 1) 1 * inject_Z 3
        + py_min (inject_Z (flag (badge_count_flag r)) / inject_Z 1) 1 * inject_Z 2
        + py_min (inject_Z (len (specific_badges_found r)) / inject_Z 3) 1 * inject_Z 2
        + py_min (inject_Z (flag (avatar_flag r)) / inject_Z 1) 1 * inject_Z 1)%Q,
     12)) by reflexivity.
  rewrite Hfold. change (0 <? 12) with true. cbv iota.
  apply Qmult_comp; [|reflexivity].
  apply Qmult_comp; [|reflexivity].
  unfold weighted_score.
  repeat (apply Qplus_comp; [|apply factor_score_contribution]).
  rewrite Qplus_0_l. apply factor_score_contribution.
Qed.

(** C1: the percentage is the weighted sum of the seven contributions
    [min(observed/cap, 1) * weight] over the total weight 12, times 100;
    the verdict is High iff it is at least 70, Medium iff it is at least
    40 and below 70, Low otherwise. No evidence gives 0 and Low; the
    account-age flag alone gives exactly 25 and Low. *)
Theorem C1_threat_level_weighted_score (r : analysis_results) :
  (threat_percentage r == weighted_score r / 12 * 100)%Q ∧
  (calculate_threat_level r = "High" ↔ (70 <= threat_percentage r)%Q) ∧
  (calculate_threat_level r = "Medium" ↔
     (40 <= threat_percentage r)%Q ∧ (threat_percentage r < 70)%Q) ∧
  (calculate_threat_level r = "Low" ↔ (threat_percentage r < 40)%Q) ∧
  (threat_percentage no_evidence == 0)%Q ∧
  calculate_threat_level no_evidence = "Low" ∧
  (threat_percentage young_account_only == 25)%Q ∧
  calculate_threat_level young_account_only = "Low".
Proof.
  split; [apply threat_percentage_weighted|].
  assert (H70 := Qle_bool_iff 70 (threat_percentage r)).
  assert (H40 := Qle_bool_iff 40 (threat_percentage r)).
  assert (Hmono : (70 <= threat_percentage r)%Q → (40 <= threat_percentage r)%Q).
  { intros Hle. apply Qle_trans with 70%Q; [|exact Hle].
    unfold Qle. simpl. lia. }
  assert (Hverdict :
    (calculate_threat_level r = "High" ↔ (70 <= threat_percentage r)%Q) ∧
    (calculate_threat_level r = "Medium" ↔
       (40 <= threat_percentage r)%Q ∧ (threat_percentage r < 70)%Q) ∧
    (calculate_threat_level r = "Low" ↔ (threat_percentage r < 40)%Q)).
  { unfold calculate_threat_level.
    destruct (Qle_bool 70 (threat_percentage r)) eqn:E70;
      [|destruct (Qle_bool 40 (threat_percentage r)) eqn:E40].
    - split; [|split].
      + split; [intros _; apply H70; reflexivity|reflexivity].
      + split; [discriminate|].
        intros [_ Hlt]. exfalso. apply (Qlt_not_le _ _ Hlt).
        apply H70. reflexivity.
      + split; [discriminate|].
        intros Hlt. exfalso. apply (Qlt_not_le _ _ Hlt).
        apply Hmono, H70. reflexivity.
    - split; [|split].
      + split; [discriminate|]. intros Hle. apply H70 in Hle. discriminate Hle.
      + split; [|reflexivity]. intros _. split; [apply H40; reflexivity|].
        apply Qnot_le_lt. intros Hle. apply H70 in Hle. discriminate Hle.
      + split; [discriminate|].
        intros Hlt. exfalso. apply (Qlt_not_le _ _ Hlt).
        apply H40. reflexivity.
    - split; [|split].
      + split; [discriminate|]. intros Hle. apply H70 in Hle. discriminate Hle.
      + split; [discriminate|].
        intros [Hle _]. apply H40 in Hle. discriminate Hle.
      + split; [|reflexivity]. intros _.
        apply Qnot_le_lt. intros Hle. apply H40 in Hle. discriminate Hle. }
  destruct Hverdict as (Hhigh & Hmedium & Hlow).
  split; [exact Hhigh|]. split; [exact Hmedium|]. split; [exact Hlow|].
  split; [vm_compute; reflexivity|]. split; [vm_compute; reflexivity|].
  split; [vm_compute; reflexivity|]. vm_compute; reflexivity.
Qed.

(** ** check_account_age *)

Section AccountAge.
Context `{DatetimeLib}.

Lemma read_date_naive (v : pyval) (dt : datetime) :
  read_date v = Ret dt → dt_tzinfo dt = None.
Proof.
  unfold read_date.
  destruct (match v with
            | PStr s => _ | PDatetime d => _ | _ => _ end) as [d|e];
    simpl; [|done].
  intros [= <-]. by destruct (dt_tzinfo d) eqn:E.
Qed.

(** C5, as the code has it. A creation timestamp that can be read gives
    [True] exactly when its wall-clock reading, with the UTC offset thrown
    away, is strictly later than the reading of the local clock minus 120
    days; one that cannot be read gives [False], and nothing is raised.
    For a timestamp in the zone of the process (a naive one, or one with
    the local offset) this is the comparison of instants the
    specification words, and 10, 120 and 200 days back give [True],
    [False] and [False]. For every other offset there is a timestamp on
    which the check and the comparison of instants differ. *)
Theorem C5_account_age_wall_clock (now : datetime) (created : pyval) :
  (∀ dt, read_date created = Ret dt →
     (check_account_age now created = Ret true ↔
        dt_micros now - 120 * micros_per_day < dt_micros dt) ∧
     (check_account_age now created = Ret false ↔
        dt_micros dt <= dt_micros now - 120 * micros_per_day)) ∧
  (∀ e, read_date created = Raise e →
     check_account_age now created = Ret false) ∧
  ¬ raises (check_account_age now created) ∧
  (∀ local wall tz,
     check_account_age now
       (PDatetime {| dt_micros := wall; dt_tzinfo := tz |})
     = Ret (dt_micros now - 120 * micros_per_day <? wall) ∧
     (default local tz = local →
      strictly_more_recent local now {| dt_micros := wall; dt_tzinfo := tz |}
      = (dt_micros now - 120 * micros_per_day <? wall))) ∧
  (∀ local tz d,
     default local tz = local →
     d = 10 ∨ d = 120 ∨ d = 200 →
     check_account_age now
       (PDatetime {| dt_micros := dt_micros now - d * micros_per_day;
                     dt_tzinfo := tz |})
     = Ret (bool_decide (d = 10))) ∧
  (∀ local offset,
     offset ≠ local →
     ∃ wall,
       check_account_age now
         (PDatetime {| dt_micros := wall; dt_tzinfo := Some offset |})
       ≠ Ret (strictly_more_recent local now
                {| dt_micros := wall; dt_tzinfo := Some offset |})).
Proof.
  assert (Hobj : ∀ wall tz,
            check_account_age now
              (PDatetime {| dt_micros := wall; dt_tzinfo := tz |})
            = Ret (dt_micros now - 120 * micros_per_day <? wall)).
  { intros wall tz. unfold check_account_age, read_date, timedelta_days.
    by destruct tz. }
  split; [|split; [|split; [|split; [|split]]]].
  - unfold check_account_age, timedelta_days. intros dt ->. simpl.
    destruct (Z.ltb_spec (dt_micros now - 120 * micros_per_day) (dt_micros dt)).
    + split; split; try done; intros; lia.
    + split; split; try done; intros; lia.
  - unfold check_account_age. intros e ->. done.
  - unfold check_account_age. destruct (read_date created); simpl; tauto.
  - intros local wall tz. split; [apply Hobj|].
    intros Hzone. unfold strictly_more_recent, instant. simpl. rewrite Hzone.
    destruct (Z.ltb_spec (dt_micros now - 1000000 * local - 120 * micros_per_day)
                (wall - 1000000 * local));
      destruct (Z.ltb_spec (dt_micros now - 120 * micros_per_day) wall);
      (done || lia).
  - intros local tz d _ Hd. rewrite Hobj. f_equal.
    unfold micros_per_day.
    destruct Hd as [-> | [-> | ->]]; simpl;
      match goal with |- (?a <? ?b) = _ =>
        destruct (Z.ltb_spec a b); try done; lia end.
  - intros local offset Hne.
    destruct (Z.lt_trichotomy offset local) as [Hlt|[Heq|Hgt]]; [|done|].
    + exists (dt_micros now - 120 * micros_per_day). rewrite Hobj.
      unfold strictly_more_recent, instant. simpl.
      rewrite Z.ltb_irrefl.
      destruct (Z.ltb_spec (dt_micros now - 1000000 * local - 120 * micros_per_day)
                  (dt_micros now - 120 * micros_per_day - 1000000 * offset));
        [discriminate|lia].
    + exists (dt_micros now - 120 * micros_per_day + 1). rewrite Hobj.
      unfold strictly_more_recent, instant. simpl.
      destruct (Z.ltb_spec (dt_micros now - 120 * micros_per_day)
                  (dt_micros now - 120 * micros_per_day + 1)); [|lia].
      destruct (Z.ltb_spec (dt_micros now - 1000000 * local - 120 * micros_per_day)
                  (dt_micros now - 120 * micros_per_day + 1 - 1000000 * offset));
        [lia|discriminate].
Qed.

End AccountAge.

(** The witness of C5, with the canonical reader, on the first of June
    2024 at midnight by the local clock: timestamps 10, 200 and exactly
    120 days back, a string that is no date, and two timestamps that are
    taken for recent ones although they are more than 120 days back:
    2024-02-02T03:00:00+05:00 on a machine that runs in UTC, and
    2024-02-02T03:00:00Z on a machine that runs five hours behind UTC. *)
Lemma C5_account_age_witness :
  let now := midnight 2024 6 1 in
  let three_o_clock tz :=
    {| dt_micros := days_from_civil 2024 2 2 * micros_per_day
                    + 3 * 3600 * 1000000;
       dt_tzinfo := tz |} in
  @check_account_age canonical_datetime_lib now
    (PStr "2024-05-22T00:00:00Z") = Ret true ∧
  @check_account_age canonical_datetime_lib now (PStr "2023-11-14") = Ret false ∧
  @check_account_age canonical_datetime_lib now
    (PStr "2024-02-02T00:00:00Z") = Ret false ∧
  @check_account_age canonical_datetime_lib now (PStr "soon") = Ret false ∧
  @check_account_age canonical_datetime_lib now
    (PStr "2024-02-02T03:00:00+05:00") = Ret true ∧
  strictly_more_recent 0 now (three_o_clock (Some 18000)) = false ∧
  @check_account_age canonical_datetime_lib now
    (PStr "2024-02-02T03:00:00Z") = Ret true ∧
  strictly_more_recent (-18000) now (three_o_clock (Some 0)) = false.
Proof.
  intros now three_o_clock.
  pose proof (@C5_account_age_wall_clock canonical_datetime_lib now) as Hc.
  split; [|split; [|split; [|split; [|split; [|split; [|split]]]]]].
  - destruct (Hc (PStr "2024-05-22T00:00:00Z")) as (Hparsed & _).
    apply (Hparsed (midnight 2024 5 22)); [reflexivity|].
    vm_compute. reflexivity.
  - destruct (Hc (PStr "2023-11-14")) as (Hparsed & _).
    apply (Hparsed (midnight 2023 11 14)); [reflexivity|].
    vm_compute. discriminate.
  - destruct (Hc (PStr "2024-02-02T00:00:00Z")) as (Hparsed & _).
    apply (Hparsed (midnight 2024 2 2)); [reflexivity|].
    vm_compute. discriminate.
  - destruct (Hc (PStr "soon")) as (_ & Hbad & _).
    apply (Hbad ValueError). reflexivity.
  - destruct (Hc (PStr "2024-02-02T03:00:00+05:00")) as (Hparsed & _).
    apply (Hparsed (three_o_clock None)); [reflexivity|].
    vm_compute. reflexivity.
  - reflexivity.
  - destruct (Hc (PStr "2024-02-02T03:00:00Z")) as (Hparsed & _).
    apply (Hparsed (three_o_clock None)); [reflexivity|].
    vm_compute. reflexivity.
  - reflexivity.
Defined.

(** ** _check_character_substitution_similarity *)

Lemma substitutions_items :
  substitutions =
  [ ("0"%char, "o"); ("1"%char, "l"); ("3"%char, "e"); ("4"%char, "a");
    ("5"%char, "s"); ("7"%char, "t"); ("8"%char, "b"); ("@"%char, "a") ].
Proof. reflexivity. Qed.

Lemma replace_char_map (c r : ascii) (s : string) :
  Str.replace_char c (String r EmptyString) s =
  Str.map (λ d, if Ascii.eqb c d then r else d) s.
Proof.
  induction s as [|d s IH]; simpl; [done|].
  destruct (Ascii.eqb c d); simpl; by rewrite IH.
Qed.

Lemma str_map_map (f g : ascii → ascii) (s : string) :
  Str.map f (Str.map g s) = Str.map (λ c, f (g c)) s.
Proof. induction s as [|c s IH]; simpl; [done|]. by rewrite IH. Qed.

Lemma str_map_ext (f g : ascii → ascii) (s : string) :
  (∀ c, f c = g c) → Str.map f s = Str.map g s.
Proof. intros Hfg. induction s as [|c s IH]; simpl; [done|]. by rewrite Hfg, IH. Qed.

Lemma str_map_length (f : ascii → ascii) (s : string) :
  String.length (Str.map f s) = String.length s.
Proof. induction s as [|c s IH]; simpl; [done|]. by rewrite IH. Qed.

Lemma normalize_username_leet (username : string) :
  normalize_username username = Str.map leet_char username.
Proof.
  unfold normalize_username. rewrite substitutions_items. simpl.
  rewrite !replace_char_map, !str_map_map.
  apply str_map_ext.
  intros [[] [] [] [] [] [] [] []]; reflexivity.
Qed.

Lemma count_matches_positional (a b : string) :
  count_matches a b = positional_matches a b.
Proof.
  unfold count_matches, len. revert b.
  induction a as [|x a IH]; intros [|y b]; simpl; try done.
  rewrite filter_cons. simpl.
  destruct (Ascii.eqb x y); simpl.
  - rewrite <- IH. lia.
  - by rewrite <- IH.
Qed.

(** C10: the normalisation maps every ['1'] to ['l'] and never to ['i']
    (the later item of the dict display replaces the earlier one), and the
    similarity of two usernames is the number of positional matches of
    their normalised forms over the longer normalised length. *)
Theorem C10_similarity_under_one_to_l (username1 username2 : string) :
  List.In ("1"%char, "l") substitutions ∧
  ¬ List.In ("1"%char, "i") substitutions ∧
  normalize_username username1 = Str.map leet_char username1 ∧
  leet_char "1" = "l"%char ∧
  Str.mem_char "1" (normalize_username username1) = false ∧
  (Str.mem_char "i" username1 = false →
   Str.mem_char "i" (normalize_username username1) = false) ∧
  (check_character_substitution_similarity username1 username2 ==
   if (strlen username1 =? 0) || (strlen username2 =? 0) then 0
   else inject_Z (positional_matches (Str.map leet_char username1)
                                     (Str.map leet_char username2))
        / inject_Z (Z.max (strlen username1) (strlen username2)))%Q.
Proof.
  split; [rewrite substitutions_items; simpl; tauto|].
  split.
  { rewrite substitutions_items. simpl.
    intros H; repeat (destruct H as [H|H]; [discriminate H|]); exact H. }
  split; [apply normalize_username_leet|].
  split; [reflexivity|].
  split.
  { rewrite normalize_username_leet.
    induction username1 as [|c s IH]; simpl; [done|].
    rewrite IH, orb_false_r. clear IH.
    by destruct c as [[] [] [] [] [] [] [] []]. }
  split.
  { rewrite normalize_username_leet.
    induction username1 as [|c s IH]; simpl; [done|].
    intros Hi. apply orb_false_iff in Hi as [Hc Hs].
    rewrite (IH Hs), orb_false_r. clear IH Hs.
    by destruct c as [[] [] [] [] [] [] [] []]. }
  unfold check_character_substitution_similarity.
  rewrite !normalize_username_leet, count_matches_positional.
  unfold strlen. rewrite !str_map_length.
  destruct ((Z.of_nat (String.length username1) =? 0) ||
            (Z.of_nat (String.length username2) =? 0)) eqn:E; [reflexivity|].
  apply orb_false_iff in E as [E1 E2].
  apply Z.eqb_neq in E1. apply Z.eqb_neq in E2.
  destruct (Z.ltb_spec 0 (Z.max (Z.of_nat (String.length username1))
                                (Z.of_nat (String.length username2))));
    [reflexivity|lia].
Qed.

(** The witness of C10: a username without ['i'] has none once
    normalised, although it has a ['1']. *)
Lemma C10_similarity_witness :
  Str.mem_char "i" (normalize_username "b1t0") = false ∧
  normalize_username "b1t0" = "blto".
Proof.
  destruct (C10_similarity_under_one_to_l "b1t0" "blto")
    as (_ & _ & _ & _ & _ & Hi & _).
  split; [apply Hi; reflexivity|reflexivity].
Defined.

(** ** _rate_limited_request *)

Lemma backoffs_snoc (tr : list event) (ev : event) :
  backoffs (tr ++ [ev]) =
  (backoffs tr ++ match ev with SleptBackoff w => [w] | _ => [] end)%list.
Proof. unfold backoffs. rewrite omap_app. by destruct ev. Qed.

Lemma rate_limit_keeps (self : RobloxAPI) :
  session (rate_limit self) = session self ∧
  sent (rate_limit self) = sent self ∧
  backoffs (trace (rate_limit self)) = backoffs (trace self).
Proof.
  unfold rate_limit.
  destruct (Qlt_bool _ _); simpl; [|done].
  rewrite backoffs_snoc. by rewrite app_nil_r.
Qed.

(** One attempt against a throttling reply: it goes on to the next
    attempt after the backoff wait, or gives up on the last one. *)
Lemma attempt_body_throttled (srv : server) (url : string)
    (max_retries attempt : Z) (self : RobloxAPI) (took : Q) (body : res json) :
  session self = true →
  srv (sent self) = Reply took 429 body →
  ∃ self',
    attempt_body srv url max_retries attempt self =
      (self', Ret (if attempt <? max_retries - 1 then Continue
                   else Return None)) ∧
    session self' = true ∧
    sent self' = S (sent self) ∧
    backoffs (trace self') =
      (backoffs (trace self) ++
       if attempt <? max_retries - 1 then [Z.min 8 (2 ^ attempt)] else [])%list.
Proof.
  intros Hs Hr. unfold attempt_body, attempt_try, attempt_response.
  destruct (rate_limit_keeps self) as (Hs' & Hn' & Hb').
  rewrite Hs', Hs, Hn', Hr. simpl.
  destruct (attempt <? max_retries - 1); simpl; eexists; split; try reflexivity;
    simpl; rewrite ?Hs', ?Hn', ?backoffs_snoc, ?Hb'; simpl;
    rewrite ?app_nil_r; by rewrite <- ?app_assoc.
Qed.

Lemma ensure_session_keeps (self : RobloxAPI) :
  session (ensure_session self) = true ∧
  sent (ensure_session self) = sent self ∧
  trace (ensure_session self) = trace self.
Proof. unfold ensure_session. by destruct (session self) eqn:E. Qed.

(** C3, as the code has it: three throttled attempts with
    [max_retries = 3] end in [None] after exactly three requests, and the
    two backoff waits are [min(8, 2 ** 0) = 1] and [min(8, 2 ** 1) = 2]
    time units, not 2 and 4; no wait follows the last attempt. *)
Theorem C3_throttled_waits_one_then_two (srv : server) (url : string)
    (self : RobloxAPI) :
  throttles srv →
  ∃ self',
    rate_limited_request srv url 3 self = (self', Ret None) ∧
    sent self' = (sent self + 3)%nat ∧
    backoffs (trace self') = (backoffs (trace self) ++ [1; 2])%list ∧
    backoffs (trace self') ≠ (backoffs (trace self) ++ [2; 4])%list.
Proof.
  intros Hsrv. unfold rate_limited_request.
  destruct (ensure_session_keeps self) as (Hs0 & Hn0 & Ht0).
  change (range 3) with [0; 1; 2]. cbn [request_loop].
  destruct (Hsrv (sent (ensure_session self))) as (t1 & b1 & Hr1).
  destruct (attempt_body_throttled srv url 3 0 _ t1 b1 Hs0 Hr1)
    as (s1 & -> & Hs1 & Hn1 & Hb1).
  change (0 <? 3 - 1) with true in *. cbv iota.
  destruct (Hsrv (sent s1)) as (t2 & b2 & Hr2).
  destruct (attempt_body_throttled srv url 3 1 _ t2 b2 Hs1 Hr2)
    as (s2 & -> & Hs2 & Hn2 & Hb2).
  change (1 <? 3 - 1) with true in *. cbv iota.
  destruct (Hsrv (sent s2)) as (t3 & b3 & Hr3).
  destruct (attempt_body_throttled srv url 3 2 _ t3 b3 Hs2 Hr3)
    as (s3 & -> & Hs3 & Hn3 & Hb3).
  change (2 <? 3 - 1) with false in *. cbv iota.
  exists s3. split; [reflexivity|].
  assert (Hb : backoffs (trace s3) = (backoffs (trace self) ++ [1; 2])%list).
  { rewrite Hb3, Hb2, Hb1, Ht0, app_nil_r, <- app_assoc. reflexivity. }
  split; [lia|]. split; [exact Hb|].
  rewrite Hb. intros Heq. apply app_inv_head in Heq. discriminate Heq.
Qed.

(** The witness of C3: a server that answers 429 to everything. *)
Lemma C3_throttled_witness :
  ∃ self',
    rate_limited_request always_429 "u" 3 (RobloxAPI_init 0) = (self', Ret None) ∧
    sent self' = 3%nat ∧
    backoffs (trace self') = [1; 2].
Proof.
  assert (Hsrv : throttles always_429).
  { intros n. exists 0%Q, (Ret JNull). reflexivity. }
  destruct (C3_throttled_waits_one_then_two always_429 "u" (RobloxAPI_init 0) Hsrv)
    as (self' & Hr & Hn & Hb & _).
  exists self'. split; [exact Hr|]. split; [exact Hn|exact Hb].
Defined.

(** A status that is neither 200 nor 429 ends the request at once. *)
Lemma request_loop_other_status (srv : server) (url : string)
    (max_retries attempt : Z) (rest : list Z) (self : RobloxAPI)
    (took : Q) (status : Z) (body : res json) :
  session self = true →
  srv (sent self) = Reply took status body →
  status ≠ 200 → status ≠ 429 →
  ∃ self', request_loop srv url max_retries (attempt :: rest) self
             = (self', Ret None) ∧
           sent self' = S (sent self) ∧
           backoffs (trace self') = backoffs (trace self).
Proof.
  intros Hs Hr H200 H429. cbn [request_loop].
  unfold attempt_body, attempt_try, attempt_response.
  destruct (rate_limit_keeps self) as (Hs' & Hn' & Hb').
  rewrite Hs', Hs, Hn', Hr.
  apply Z.eqb_neq in H200, H429. rewrite H200, H429.
  eexists. split; [reflexivity|]. simpl.
  rewrite Hn', backoffs_snoc, Hb', app_nil_r. done.
Qed.

Lemma range_length (n : Z) : length (range n) = Z.to_nat n.
Proof. unfold range. by rewrite length_map, length_seq. Qed.

Lemma range_pos (n : Z) :
  0 < n → ∃ rest, range n = 0 :: rest.
Proof.
  intros Hn. unfold range.
  destruct (Z.to_nat n) as [|k] eqn:E; [lia|].
  simpl. eauto.
Qed.

(** One attempt on a client with a session: it sends one request, and
    the reply decides how the loop goes on. *)
Lemma attempt_body_step (srv : server) (url : string)
    (max_retries attempt : Z) (self : RobloxAPI) :
  session self = true →
  ∃ self' c,
    attempt_body srv url max_retries attempt self = (self', Ret c) ∧
    session self' = true ∧
    sent self' = S (sent self) ∧
    match srv (sent self) with
    | Reply _ status body =>
        if status =? 200 then
          match body with
          | Ret data => c = Return (Some data)
          | Raise _ => c = Continue ∨ c = Return None
          end
        else if status =? 429 then c = Continue ∨ c = Return None
        else c = Return None
    | Broken _ _ => c = Continue ∨ c = Return None
    end.
Proof.
  intros Hs.
  unfold attempt_body, attempt_try, attempt_response, attempt_except.
  destruct (rate_limit_keeps self) as (Hs' & Hn' & _).
  rewrite Hs', Hs, Hn'.
  destruct (srv (sent self)) as [took status body|took e].
  - destruct (status =? 200).
    + destruct body as [data|e]; simpl.
      * do 2 eexists. split; [reflexivity|]. simpl. rewrite Hs', Hn'. done.
      * destruct (attempt <? max_retries - 1); simpl;
          do 2 eexists; (split; [reflexivity|]); simpl; rewrite Hs', Hn'; auto.
    + destruct (status =? 429).
      * destruct (attempt <? max_retries - 1); simpl;
          do 2 eexists; (split; [reflexivity|]); simpl; rewrite Hs', Hn'; auto.
      * simpl. do 2 eexists. split; [reflexivity|]. simpl. rewrite Hs', Hn'. done.
  - destruct (attempt <? max_retries - 1); simpl;
      do 2 eexists; (split; [reflexivity|]); simpl; rewrite Hs', Hn'; auto.
Qed.

(** The loop on a client with a session. It never raises. Each request
    it sent got a reply, and the loop went on after it only if the reply
    was a 429, an undecodable 200 or a transport failure: a decodable 200
    or any other status is the last request, with the body or [None] as
    the result. *)
Lemma request_loop_outcome (srv : server) (url : string) (max_retries : Z)
    (attempts : list Z) (self : RobloxAPI) :
  session self = true →
  ∃ self' v,
    request_loop srv url max_retries attempts self = (self', Ret v) ∧
    (sent self <= sent self' <= sent self + length attempts)%nat ∧
    (attempts ≠ [] → (sent self < sent self')%nat) ∧
    (∀ n took status body,
       (sent self <= n < sent self')%nat →
       srv n = Reply took status body →
       status ≠ 200 → status ≠ 429 →
       sent self' = S n ∧ v = None) ∧
    (∀ n took data,
       (sent self <= n < sent self')%nat →
       srv n = Reply took 200 (Ret data) →
       sent self' = S n ∧ v = Some data) ∧
    (∀ data,
       v = Some data →
       (sent self < sent self')%nat ∧
       ∃ took, srv (Nat.pred (sent self')) = Reply took 200 (Ret data)).
Proof.
  revert self. induction attempts as [|attempt rest IH]; intros self Hs.
  { simpl. exists self, None. split; [done|]. split; [lia|].
    split; [done|]. split; [intros; lia|]. split; [intros; lia|done]. }
  cbn [request_loop].
  destruct (attempt_body_step srv url max_retries attempt self Hs)
    as (s1 & c & -> & Hs1 & Hn1 & Hc).
  assert (Hstop : ∀ v0, c = Return v0 →
            (∀ took status body, srv (sent self) = Reply took status body →
               status ≠ 200 → status ≠ 429 → v0 = None) ∧
            (∀ took data, srv (sent self) = Reply took 200 (Ret data) →
               v0 = Some data) ∧
            (∀ data, v0 = Some data →
               ∃ took, srv (sent self) = Reply took 200 (Ret data))).
  { intros v0 ->.
    destruct (srv (sent self)) as [took status body|took e].
    - destruct (Z.eqb_spec status 200) as [H200|H200].
      + destruct body as [data|e].
        * injection Hc as ->. repeat split; intros; simplify_eq; eauto.
        * destruct Hc as [Hc|Hc]; [done|]. injection Hc as ->.
          repeat split; intros; simplify_eq.
      + destruct (Z.eqb_spec status 429) as [H429|H429].
        * destruct Hc as [Hc|Hc]; [done|]. injection Hc as ->.
          repeat split; intros; simplify_eq.
        * injection Hc as ->. repeat split; intros; simplify_eq.
    - destruct Hc as [Hc|Hc]; [done|]. injection Hc as ->.
      repeat split; intros; simplify_eq. }
  assert (Hgo : c = Continue →
            (∀ took status body, srv (sent self) = Reply took status body →
               status ≠ 200 → status ≠ 429 → False) ∧
            (∀ took data, srv (sent self) = Reply took 200 (Ret data) → False)).
  { intros ->.
    destruct (srv (sent self)) as [took status body|took e].
    - destruct (Z.eqb_spec status 200) as [H200|H200].
      + destruct body as [data|e]; [done|].
        split; intros; simplify_eq.
      + destruct (Z.eqb_spec status 429) as [H429|H429]; [|done].
        split; intros; simplify_eq.
    - split; intros; simplify_eq. }
  assert (Hnofall : c ≠ FallThrough).
  { intros ->. destruct (srv (sent self)) as [took status body|took e].
    - destruct (status =? 200); [destruct body|destruct (status =? 429)];
        try done; by destruct Hc.
    - by destruct Hc. }
  destruct c as [| |v0]; [|done|].
  - destruct (Hgo eq_refl) as (Hother & Hdecoded).
    destruct (IH s1 Hs1) as (s' & v & -> & Hn & _ & Ho & Hd & Hv).
    exists s', v. split; [reflexivity|]. simpl length.
    split; [lia|]. split; [lia|].
    split; [|split].
    + intros n took status body Hrange Hr H200 H429.
      destruct (Nat.eq_dec n (sent self)) as [->|Hne].
      * exfalso. by eapply Hother.
      * apply (Ho n took status body); [lia|done..].
    + intros n took data Hrange Hr.
      destruct (Nat.eq_dec n (sent self)) as [->|Hne].
      * exfalso. by eapply Hdecoded.
      * apply (Hd n took data); [lia|done].
    + intros data Hdata. destruct (Hv data Hdata) as (Hlt & took & Hr).
      split; [lia|eauto].
  - destruct (Hstop v0 eq_refl) as (Hother & Hdecoded & Hsome).
    exists s1, v0. split; [reflexivity|]. simpl length.
    split; [lia|]. split; [lia|].
    split; [|split].
    + intros n took status body Hrange Hr H200 H429.
      assert (n = sent self) as -> by lia.
      split; [done|]. by eapply Hother.
    + intros n took data Hrange Hr.
      assert (n = sent self) as -> by lia.
      split; [done|]. by eapply Hdecoded.
    + intros data Hdata. split; [lia|].
      rewrite Hn1. simpl. by apply Hsome.
Qed.

(** C4: the request never raises. Whatever the replies, it returns, and
    it returns [None] unless the last request it sent got a decodable 200:
    so every failure path ends in [None]. Of the requests it sends, one
    that gets a status other than 200 and 429 is the last, with [None] as
    the result and no retry, wherever in the sequence it comes; one that
    gets a decodable 200 is the last, with the body as the result. The
    profile lookup built on it never raises either. *)
Theorem C4_request_never_raises (srv : server) (url : string)
    (max_retries : Z) (self : RobloxAPI) :
  (∃ self' v,
     rate_limited_request srv url max_retries self = (self', Ret v) ∧
     ((∀ n, is_success (srv n) = false) → v = None) ∧
     (sent self <= sent self' <= sent self + Z.to_nat max_retries)%nat ∧
     (∀ n took status body,
        (sent self <= n < sent self')%nat →
        srv n = Reply took status body →
        status ≠ 200 → status ≠ 429 →
        sent self' = S n ∧ v = None) ∧
     (∀ n took data,
        (sent self <= n < sent self')%nat →
        srv n = Reply took 200 (Ret data) →
        sent self' = S n ∧ v = Some data) ∧
     (∀ data,
        v = Some data →
        (sent self < sent self')%nat ∧
        ∃ took, srv (Nat.pred (sent self')) = Reply took 200 (Ret data))) ∧
  (∀ took status body,
     0 < max_retries →
     srv (sent self) = Reply took status body →
     status ≠ 200 → status ≠ 429 →
     ∃ self',
       rate_limited_request srv url max_retries self = (self', Ret None) ∧
       sent self' = S (sent self) ∧
       backoffs (trace self') = backoffs (trace self)) ∧
  (∀ str_of_json username,
     ∃ self' v,
       get_user_profile str_of_json srv username self = (self', Ret v)).
Proof.
  split; [|split].
  - unfold rate_limited_request.
    destruct (ensure_session_keeps self) as (Hs0 & Hn0 & _).
    destruct (request_loop_outcome srv url max_retries (range max_retries)
                (ensure_session self) Hs0)
      as (self' & v & Hr & Hn & _ & Hother & Hdecoded & Hsome).
    rewrite range_length, Hn0 in Hn. rewrite Hn0 in Hother, Hdecoded, Hsome.
    exists self', v. split; [exact Hr|].
    split; [|split; [exact Hn|split; [exact Hother|split; [exact Hdecoded|exact Hsome]]]].
    intros Hfail. destruct v as [data|]; [|done].
    destruct (Hsome data eq_refl) as (_ & took & Hlast).
    specialize (Hfail (Nat.pred (sent self'))).
    rewrite Hlast in Hfail. discriminate Hfail.
  - intros took status body Hpos Hr H200 H429.
    unfold rate_limited_request.
    destruct (ensure_session_keeps self) as (Hs0 & Hn0 & Ht0).
    destruct (range_pos max_retries Hpos) as (rest & ->).
    rewrite <- Hn0 in Hr.
    destruct (request_loop_other_status srv url max_retries 0 rest _
                took status body Hs0 Hr H200 H429) as (s & Hreq & Hn & Hb).
    exists s. split; [exact Hreq|]. rewrite Hn, Hb, Hn0, Ht0. done.
  - intros str_of_json username. unfold get_user_profile.
    destruct (get_user_profile_try _ _ _ _) as [s [v|e]]; eauto.
Qed.

(** The witness of C4: a server that answers 404 to everything, and one
    that answers 429, then 500, and would answer 200 to a third request
    that is never sent. *)
Lemma C4_request_witness :
  (∃ self',
     rate_limited_request always_404 "u" 3 (RobloxAPI_init 0) = (self', Ret None) ∧
     sent self' = 1%nat) ∧
  (∃ self',
     rate_limited_request throttled_then_500 "u" 3 (RobloxAPI_init 0)
       = (self', Ret None) ∧
     sent self' = 2%nat).
Proof.
  split.
  - destruct (C4_request_never_raises always_404 "u" 3 (RobloxAPI_init 0))
      as (_ & Hother & _).
    destruct (Hother 0%Q 404 (Ret JNull)) as (self' & Hr & Hn & _);
      [reflexivity|reflexivity|discriminate|discriminate|].
    exists self'. split; [exact Hr|exact Hn].
  - destruct (C4_request_never_raises throttled_then_500 "u" 3 (RobloxAPI_init 0))
      as ((self' & v & Hr & _ & _ & Hother & _) & _).
    assert (Hsent : sent (rate_limited_request throttled_then_500 "u" 3
                            (RobloxAPI_init 0)).1 = 2%nat).
    { vm_compute. reflexivity. }
    rewrite Hr in Hsent. simpl in Hsent.
    destruct (Hother 1%nat 0%Q 500 (Ret JNull)) as (_ & ->);
      [simpl; lia|reflexivity|discriminate|discriminate|].
    exists self'. split; [exact Hr|exact Hsent].
Defined.

(** ** check_creation_date_patterns *)

Section CreationDates.
Context `{DatetimeLib}.

(** What one turn of the loop decides for a candidate whose date can be
  read: it is reported when the target is at most 7 whole days older
  or less than 8 days younger than the candidate. *)
Lemma creation_date_step_readable (user_date friend_date : datetime)
  (friend_data : pydict) (friend_created : pyval) :
friend_data !! "created_date" = Some friend_created →
truthy friend_created = true →
read_date friend_created = Ret friend_date →
creation_date_step user_date friend_data =
Ret (if (-7 * micros_per_day <=? dt_micros user_date - dt_micros friend_date)
        && (dt_micros user_date - dt_micros friend_date <? 8 * micros_per_day)
     then Some {| spa_username := get_or_none friend_data "name";
                  spa_created_date := friend_created;
                  spa_days_apart := Z.abs (sub_days user_date friend_date) |}
     else None).
Proof.
intros Hget Htruthy Hread. unfold creation_date_step, get_or_none.
rewrite Hget. simpl. rewrite Htruthy. simpl. rewrite Hread. simpl.
unfold sub_days.
set (diff := dt_micros user_date - dt_micros friend_date).
assert (Hday : 0 < micros_per_day) by (by vm_compute).
pose proof (Z.div_mod diff micros_per_day ltac:(lia)) as Hdm.
pose proof (Z.mod_pos_bound diff micros_per_day Hday) as Hmod.
destruct (Z.leb_spec (Z.abs (diff / micros_per_day)) 7) as [Hle|Hgt];
  destruct (Z.leb_spec (-7 * micros_per_day) diff) as [H1|H1];
  destruct (Z.ltb_spec diff (8 * micros_per_day)) as [H2|H2];
  simpl; try reflexivity; exfalso; nia.
Qed.

(** C8, as the code has it: of two candidates created 7 days and one
  second away from the target, the one created before the target is
  reported (with a gap of 7) and the one created after it is not,
  although neither is within 7 days of the target. *)
Theorem C8_creation_gap_is_asymmetric :
check_creation_date_patterns (PDatetime (day 100))
  [ friend_created "later" (PDatetime (day_plus 107 1000000));
    friend_created "earlier" (PDatetime (day_plus 93 (-1000000))) ]
= Ret [ {| spa_username := PStr "earlier";
           spa_created_date := PDatetime (day_plus 93 (-1000000));
           spa_days_apart := 7 |} ] ∧
within_seven_days (day 100) (day_plus 107 1000000) = false ∧
within_seven_days (day 100) (day_plus 93 (-1000000)) = false.
Proof. split; [|split]; vm_compute; reflexivity. Qed.

End CreationDates.

(** ** check_username_generation_patterns *)

Lemma is_sequential_gaps (numbers : list Z) :
  is_sequential numbers = true ↔ gaps_at_most_3 numbers.
Proof.
  unfold gaps_at_most_3.
  induction numbers as [|a [|b tl] IH].
  - split; [intros _ i a b Hi; by destruct i|done].
  - split; [intros _ i x y Hi Hs; by destruct i|done].
  - change (is_sequential (a :: b :: tl))
      with (if 3 <? b - a then false else is_sequential (b :: tl)).
    destruct (Z.ltb_spec 3 (b - a)) as [Hgap|Hgap].
    + split; [done|]. intros Hall.
      specialize (Hall 0%nat a b eq_refl eq_refl). lia.
    + rewrite IH. split.
      * intros Hall [|i] x y Hi Hs.
        -- simpl in Hi, Hs. by simplify_eq.
        -- exact (Hall i x y Hi Hs).
      * intros Hall i x y Hi Hs. exact (Hall (S i) x y Hi Hs).
Qed.

Lemma insert_by_number_perm (x : string * Z) (l : list (string * Z)) :
  insert_by_number x l ≡ₚ x :: l.
Proof.
  induction l as [|y l IH]; simpl; [done|].
  destruct (snd x <=? snd y); [done|].
  rewrite IH. apply Permutation_swap.
Qed.

Lemma sort_by_number_perm (l : list (string * Z)) :
  sort_by_number l ≡ₚ l.
Proof.
  induction l as [|x l IH]; simpl; [done|].
  rewrite insert_by_number_perm. by rewrite IH.
Qed.

Lemma ascending_cons (x : string * Z) (l : list (string * Z)) :
  ascending (x :: l) ↔
  (∀ y, l !! 0%nat = Some y → snd x <= snd y) ∧ ascending l.
Proof.
  unfold ascending. split.
  - intros Hall. split.
    + intros y Hy. exact (Hall 0%nat x y eq_refl Hy).
    + intros i a b Ha Hb. exact (Hall (S i) a b Ha Hb).
  - intros [Hhd Htl] [|i] a b Ha Hb.
    + simpl in Ha. simplify_eq. by apply Hhd.
    + exact (Htl i a b Ha Hb).
Qed.

Lemma insert_by_number_ascending (x : string * Z) (l : list (string * Z)) :
  ascending l → ascending (insert_by_number x l).
Proof.
  induction l as [|y l IH]; intros Hl; simpl.
  { intros [|i] a b Ha Hb; simpl in *; done. }
  destruct (Z.leb_spec (snd x) (snd y)) as [Hxy|Hxy].
  - apply ascending_cons. split; [|done].
    intros z Hz. simpl in Hz. by simplify_eq.
  - apply ascending_cons in Hl as [Hhd Htl].
    apply ascending_cons. split; [|by apply IH].
    intros z Hz. destruct l as [|w l]; simpl in Hz.
    + simplify_eq. simpl. lia.
    + destruct (Z.leb_spec (snd x) (snd w)); simpl in Hz; simplify_eq.
      * simpl. lia.
      * by apply Hhd.
Qed.

Lemma sort_by_number_ascending (l : list (string * Z)) :
  ascending (sort_by_number l).
Proof.
  induction l as [|x l IH]; simpl.
  - intros i a b Ha. by destruct i.
  - by apply insert_by_number_ascending.
Qed.

Lemma insert_by_number_filter (x : string * Z) (l : list (string * Z)) (n : Z) :
  List.filter (λ y, snd y =? n) (insert_by_number x l) =
  if snd x =? n then x :: List.filter (λ y, snd y =? n) l
  else List.filter (λ y, snd y =? n) l.
Proof.
  induction l as [|y l IH]; cbn [insert_by_number].
  { simpl. by destruct (snd x =? n). }
  destruct (Z.leb_spec (snd x) (snd y)) as [Hxy|Hxy].
  { cbn [List.filter]. by destruct (snd x =? n). }
  cbn [List.filter]. rewrite IH.
  destruct (Z.eqb_spec (snd x) n) as [Hx|Hx]; [|done].
  destruct (Z.eqb_spec (snd y) n) as [Hy|Hy]; [lia|done].
Qed.

(** The sort is stable: the entries with one number keep the order they
    had. *)
Lemma sort_by_number_stable (l : list (string * Z)) (n : Z) :
  List.filter (λ y, snd y =? n) (sort_by_number l) =
  List.filter (λ y, snd y =? n) l.
Proof.
  induction l as [|x l IH]; [done|].
  change (sort_by_number (x :: l)) with (insert_by_number x (sort_by_number l)).
  rewrite insert_by_number_filter, IH. cbn [List.filter].
  by destruct (snd x =? n).
Qed.

(** *** The regex and the groups *)

Lemma str_app_cons (c : ascii) (a b : string) :
  String.append (String c a) b = String c (String.append a b).
Proof. reflexivity. Qed.

Lemma str_app_nil_l (s : string) : String.append "" s = s.
Proof. reflexivity. Qed.

Lemma str_app_nil_r (s : string) : String.append s "" = s.
Proof.
  induction s as [|c s IH]; [done|]. by rewrite str_app_cons, IH.
Qed.

Lemma str_app_assoc (a b c : string) :
  String.append (String.append a b) c = String.append a (String.append b c).
Proof.
  induction a as [|x a IH]; [done|]. by rewrite !str_app_cons, IH.
Qed.

(** A subject [\d+$] matches is a run of digits, then nothing or one
    last line feed. *)
Lemma digits_to_end_split (s : string) :
  digits_to_end s = true →
  leading_digits s ≠ "" ∧ all_digits (leading_digits s) = true ∧
  (s = leading_digits s ∨
   s = String.append (leading_digits s) (String newline EmptyString)).
Proof.
  induction s as [|c s IH]; simpl; [done|].
  destruct (Str.is_digit c) eqn:Hc; simpl; [|done].
  intros Hrest. split; [done|]. rewrite Hc. simpl.
  destruct s as [|c' s'].
  { simpl. split; [done|]. by left. }
  apply orb_true_iff in Hrest as [Hend|Hmore].
  - destruct s' as [|? ?]; [|done]. simpl in Hend.
    apply Ascii.eqb_eq in Hend as ->.
    change (Str.is_digit newline) with false. simpl.
    split; [done|]. by right.
  - destruct (IH Hmore) as (_ & Hall & Hs). rewrite Hall.
    split; [done|]. rewrite str_app_cons.
    destruct Hs as [Hs|Hs]; [left|right]; by rewrite <- Hs.
Qed.

Lemma mem_char_cons (x c : ascii) (s : string) :
  Str.mem_char x (String c s) = Ascii.eqb x c || Str.mem_char x s.
Proof. reflexivity. Qed.

Lemma lazy_prefix_eq (base rest : string) :
  lazy_prefix base rest =
  if digits_to_end rest then Some (base, leading_digits rest)
  else match rest with
       | EmptyString => None
       | String c rest' =>
           if Ascii.eqb c newline then None
           else lazy_prefix (String.append base (String c EmptyString)) rest'
       end.
Proof. by destruct rest. Qed.

Lemma str_snoc_inj (a b : string) (x y : ascii) :
  String.append a (String x "") = String.append b (String y "") →
  a = b ∧ x = y.
Proof.
  revert b. induction a as [|c a IH]; intros [|d b]; rewrite ?str_app_cons,
    ?str_app_nil_l; intros Heq.
  - by injection Heq as ->.
  - injection Heq as -> Heq. by destruct b.
  - injection Heq as -> Heq. by destruct a.
  - injection Heq as -> Heq. destruct (IH b Heq) as [-> ->]. done.
Qed.

Lemma str_snoc_cases (s : string) :
  s = "" ∨ ∃ m c, s = String.append m (String c "").
Proof.
  induction s as [|c s IH]; [by left|]. right.
  destruct IH as [->|(m & c' & ->)].
  - by exists "", c.
  - by exists (String c m), c'.
Qed.

(** The lazy prefix stops at the first place from which digits run to
    the end. *)
Lemma lazy_prefix_sound (base rest b d : string) :
  lazy_prefix base rest = Some (b, d) →
  ∃ mid tl,
    rest = String.append mid tl ∧
    b = String.append base mid ∧
    Str.mem_char newline mid = false ∧
    digits_to_end tl = true ∧
    d = leading_digits tl ∧
    (mid = "" ∨ ∃ m c, mid = String.append m (String c "") ∧
                        Str.is_digit c = false).
Proof.
  revert base. induction rest as [|c rest IH]; intros base;
    rewrite lazy_prefix_eq.
  { simpl. done. }
  destruct (digits_to_end (String c rest)) eqn:Hdte.
  { intros [= <- <-]. exists "", (String c rest).
    rewrite str_app_nil_r. repeat split; try done. by left. }
  destruct (Ascii.eqb c newline) eqn:Hnl; [done|].
  intros Hrec. destruct (IH _ Hrec) as (mid & tl & -> & -> & Hmid & Htl & -> & Hlast).
  exists (String c mid), tl.
  split; [done|]. split; [by rewrite str_app_assoc|].
  split.
  { rewrite mem_char_cons, Ascii.eqb_sym, Hnl. done. }
  split; [done|]. split; [done|]. right.
  destruct Hlast as [->|(m & c' & -> & Hc')].
  - exists "", c. split; [done|].
    rewrite str_app_nil_l in Hdte. simpl in Hdte.
    rewrite Htl, orb_true_r, andb_true_r in Hdte. done.
  - exists (String c m), c'. done.
Qed.

Lemma all_digits_app (a b : string) :
  all_digits (String.append a b) = all_digits a && all_digits b.
Proof.
  induction a as [|c a IH]; [done|].
  rewrite str_app_cons. simpl. by rewrite IH, andb_assoc.
Qed.

Lemma is_digit_newline : Str.is_digit newline = false.
Proof. reflexivity. Qed.

Lemma digits_to_end_cons (c : ascii) (s : string) :
  digits_to_end (String c s) = Str.is_digit c && (at_end s || digits_to_end s).
Proof. reflexivity. Qed.

(** A run of digits, with or without a last line feed, is matched by
    [\d+$], and its digits are group 2. *)
Lemma digits_to_end_digits (digits tl : string) :
  digits ≠ "" → all_digits digits = true →
  tl = "" ∨ tl = String newline "" →
  digits_to_end (String.append digits tl) = true ∧
  leading_digits (String.append digits tl) = digits.
Proof.
  intros Hne Hall Htl.
  induction digits as [|c ds IH]; [done|].
  simpl in Hall. apply andb_true_iff in Hall as [Hc Hds].
  rewrite str_app_cons, digits_to_end_cons, Hc. simpl. rewrite Hc.
  destruct ds as [|c' ds'].
  - rewrite str_app_nil_l. destruct Htl as [-> | ->]; split; reflexivity.
  - destruct (IH ltac:(done) Hds) as [Hd Hl]. rewrite Hd, Hl, orb_true_r. done.
Qed.

(** If [\d+$] matches a subject that ends in a digit run, everything
    before the run is digits too. *)
Lemma digits_to_end_before (x d : string) :
  digits_to_end d = true →
  digits_to_end (String.append x d) = true → all_digits x = true.
Proof.
  intros Hd. induction x as [|c x IH]; [done|].
  rewrite str_app_cons, digits_to_end_cons. intros Hx.
  apply andb_true_iff in Hx as [Hc Hrest]. simpl. rewrite Hc. simpl.
  apply IH. apply orb_true_iff in Hrest as [Hend|Hmore]; [|done].
  exfalso. destruct d as [|d0 d']; [done|].
  rewrite digits_to_end_cons in Hd. apply andb_true_iff in Hd as [Hd0 _].
  destruct x as [|x0 x'].
  - rewrite str_app_nil_l in Hend. simpl in Hend.
    destruct d'; [|done]. apply Ascii.eqb_eq in Hend as ->.
    by rewrite is_digit_newline in Hd0.
  - rewrite str_app_cons in Hend. simpl in Hend.
    destruct x'; simpl in Hend; done.
Qed.

Lemma lazy_prefix_complete (mid acc tl digits : string) :
  Str.mem_char newline mid = false →
  digits_to_end tl = true →
  leading_digits tl = digits →
  (mid = "" ∨ ∃ m c, mid = String.append m (String c "") ∧
                      Str.is_digit c = false) →
  lazy_prefix acc (String.append mid tl)
  = Some (String.append acc mid, digits).
Proof.
  revert acc. induction mid as [|c mid IH]; intros acc Hnl Htl Hd Hlast.
  { rewrite str_app_nil_l, str_app_nil_r, lazy_prefix_eq, Htl, Hd. done. }
  rewrite mem_char_cons in Hnl. apply orb_false_iff in Hnl as [Hc Hmid].
  destruct Hlast as [|(m & c' & Hm & Hc')]; [done|].
  rewrite str_app_cons, lazy_prefix_eq.
  destruct (digits_to_end (String c (String.append mid tl))) eqn:Hdte.
  { exfalso. rewrite <- str_app_cons in Hdte.
    apply (digits_to_end_before _ _ Htl) in Hdte.
    rewrite Hm, all_digits_app in Hdte. simpl in Hdte.
    rewrite Hc', andb_false_r in Hdte. done. }
  rewrite Ascii.eqb_sym, Hc.
  rewrite (IH (String.append acc (String c ""))); [| done..| ].
  - by rewrite str_app_assoc.
  - destruct mid as [|c2 mid2]; [by left|]. right.
    destruct m as [|m0 m']; [by destruct mid2|].
    rewrite str_app_cons in Hm. injection Hm as -> Hm.
    by exists m', c'.
Qed.

(** The first group of [^(.+?)(\d+)$] is the shortest prefix after which
    digits run to the end: the regex splits a subject exactly as
    [trailing_number_split] says. *)
Lemma re_match_base_number_split (s base digits : string) :
  re_match_base_number s = Some (base, digits) ↔
  trailing_number_split s base digits.
Proof.
  unfold re_match_base_number, trailing_number_split. split.
  - destruct s as [|c0 rest]; [done|].
    destruct (Ascii.eqb c0 newline) eqn:Hc0; [done|].
    intros Hlazy.
    destruct (lazy_prefix_sound _ _ _ _ Hlazy)
      as (mid & tl & -> & -> & Hmid & Htl & -> & Hlast).
    destruct (digits_to_end_split tl Htl) as (Hne & Hall & Hsplit).
    rewrite str_app_cons, str_app_nil_l.
    split.
    { destruct Hsplit as [Hs|Hs]; [left|right]; by rewrite <- Hs. }
    split; [done|]. split.
    { rewrite mem_char_cons, Ascii.eqb_sym, Hc0. done. }
    split; [done|]. split; [done|].
    intros b c Hbase.
    destruct Hlast as [->|(m & c' & -> & Hc')].
    + left. destruct b as [|b0 b']; [done|].
      rewrite str_app_cons in Hbase. injection Hbase as _ Hbase.
      by destruct b'.
    + right. rewrite <- str_app_cons in Hbase.
      by apply str_snoc_inj in Hbase as [_ <-].
  - intros (Hs & Hne & Hnl & Hdne & Hall & Hmin).
    destruct base as [|c0 mid]; [done|].
    rewrite mem_char_cons in Hnl. apply orb_false_iff in Hnl as [Hc0 Hmid].
    assert (Hlast : mid = "" ∨ ∃ m c, mid = String.append m (String c "") ∧
                                       Str.is_digit c = false).
    { destruct (str_snoc_cases mid) as [->|(m & c & ->)]; [by left|right].
      exists m, c. split; [done|].
      destruct (Hmin (String c0 m) c) as [|Hc]; done. }
    assert (∃ tl, s = String c0 (String.append mid tl) ∧
                  digits_to_end tl = true ∧ leading_digits tl = digits)
      as (tl & -> & Htl & Hd).
    { destruct Hs as [-> | ->].
      - exists digits. split; [done|].
        destruct (digits_to_end_digits digits "" Hdne Hall ltac:(by left))
          as [H1 H2].
        by rewrite str_app_nil_r in H1, H2.
      - exists (String.append digits (String newline "")). split; [done|].
        by apply digits_to_end_digits; [..|right]. }
    rewrite Ascii.eqb_sym, Hc0.
    rewrite (lazy_prefix_complete mid (String c0 "") tl digits); done.
Qed.

(** *** The groups *)

Lemma group_append_keys {V : Type} (k : string) (v : V)
    (g : list (string * list V)) (b : string) :
  b ∈ map fst (group_append k v g) ↔ b = k ∨ b ∈ map fst g.
Proof.
  induction g as [|[k' vs] g IH]; simpl.
  { rewrite list_elem_of_singleton, elem_of_nil. tauto. }
  destruct (String.eqb_spec k k') as [->|Hne]; simpl.
  - rewrite !elem_of_cons. tauto.
  - rewrite !elem_of_cons, IH. tauto.
Qed.

Lemma group_append_NoDup {V : Type} (k : string) (v : V)
    (g : list (string * list V)) :
  NoDup (map fst g) → NoDup (map fst (group_append k v g)).
Proof.
  induction g as [|[k' vs] g IH]; simpl.
  { intros _. apply NoDup_singleton. }
  intros Hnd. apply NoDup_cons in Hnd as [Hk' Hnd].
  destruct (String.eqb_spec k k') as [->|Hne]; simpl.
  - by apply NoDup_cons.
  - apply NoDup_cons. split; [|by apply IH].
    rewrite group_append_keys. intros [->|?]; done.
Qed.

Lemma group_of_append {V : Type} (k : string) (v : V)
    (g : list (string * list V)) (b : string) :
  group_of b (group_append k v g) =
  if String.eqb b k then (group_of k g ++ [v])%list else group_of b g.
Proof.
  induction g as [|[k' vs] g IH]; simpl.
  { by destruct (String.eqb b k). }
  destruct (String.eqb_spec k k') as [->|Hne]; simpl.
  - by destruct (String.eqb b k').
  - destruct (String.eqb_spec b k') as [->|Hb].
    + destruct (String.eqb_spec k' k) as [->|_]; done.
    + exact IH.
Qed.

Lemma group_of_elem {V : Type} (g : list (string * list V)) (b : string)
    (vs : list V) :
  NoDup (map fst g) →
  (b, vs) ∈ g ↔ b ∈ map fst g ∧ group_of b g = vs.
Proof.
  induction g as [|[k' vs'] g IH]; simpl.
  { intros _. rewrite !elem_of_nil. tauto. }
  intros Hnd. apply NoDup_cons in Hnd as [Hk' Hnd].
  rewrite !elem_of_cons, (IH Hnd).
  destruct (String.eqb_spec b k') as [->|Hb].
  - split.
    + intros [[= ->]|[Hin _]]; [tauto|done].
    + intros [_ ->]. by left.
  - split.
    + intros [[= -> _]|[Hin Hg]]; [done|tauto].
    + intros [[->|Hin] Hg]; [done|tauto].
Qed.

Lemma members_cons (u : string) (us : list string) (base : string) :
  members (u :: us) base =
  match base_and_number u with
  | Some (b, n) =>
      if String.eqb b base then (u, n) :: members us base
      else members us base
  | None => members us base
  end.
Proof.
  unfold members. simpl.
  destruct (base_and_number u) as [[b n]|]; [|done].
  by destruct (String.eqb b base).
Qed.

(** The groups the loop builds from [g] hold, under each base, what [g]
    held followed by the members of that base. *)
Lemma number_base_groups_fold (us : list string)
    (g : list (string * list (string * Z))) :
  let R :=
    fold_left
      (fun groups username =>
         match re_match_base_number (Str.lower username) with
         | Some (base_name, number) =>
             group_append base_name (username, int_of_digits number) groups
         | None => groups
         end) us g in
  (NoDup (map fst g) → NoDup (map fst R)) ∧
  (∀ b, group_of b R = (group_of b g ++ members us b)%list) ∧
  (∀ b, b ∈ map fst R ↔ b ∈ map fst g ∨ members us b ≠ []).
Proof.
  revert g. induction us as [|u us IH]; intros g; cbv zeta; cbn [fold_left].
  { split; [done|]. split; [intros b; by rewrite app_nil_r|].
    intros b. unfold members. simpl. tauto. }
  specialize (IH (match re_match_base_number (Str.lower u) with
                  | Some (base_name, number) =>
                      group_append base_name (u, int_of_digits number) g
                  | None => g
                  end)).
  cbv zeta in IH. destruct IH as (Hnd & Hgroup & Hkeys).
  assert (Hm := members_cons u us). unfold base_and_number in Hm.
  destruct (re_match_base_number (Str.lower u)) as [[b0 digits]|].
  - split; [|split].
    + intros Hg. by apply Hnd, group_append_NoDup.
    + intros b. rewrite Hgroup, group_of_append, Hm.
      destruct (String.eqb_spec b b0) as [->|Hb].
      * rewrite String.eqb_refl. by rewrite <- app_assoc.
      * destruct (String.eqb_spec b0 b) as [->|_]; done.
    + intros b. rewrite Hkeys, group_append_keys, Hm.
      destruct (String.eqb_spec b0 b) as [->|Hb].
      * split; [intros _; by right|]. intros _. left. by left.
      * split; [intros [[->|?]|?]; [done|tauto|tauto]|tauto].
  - split; [done|]. split.
    + intros b. by rewrite Hgroup, Hm.
    + intros b. by rewrite Hkeys, Hm.
Qed.

(** The groups of the detector: one for each base that has members,
    holding exactly the members of that base in the order of the list. *)
Lemma number_base_groups_members (usernames : list string) :
  NoDup (map fst (number_base_groups usernames)) ∧
  ∀ base ms,
    (base, ms) ∈ number_base_groups usernames ↔
    ms = members usernames base ∧ ms ≠ [].
Proof.
  destruct (number_base_groups_fold usernames []) as (Hnd & Hgroup & Hkeys).
  fold (number_base_groups usernames) in Hnd, Hgroup, Hkeys.
  assert (Hnd' : NoDup (map fst (number_base_groups usernames))).
  { apply Hnd. constructor. }
  split; [exact Hnd'|]. intros base ms.
  rewrite (group_of_elem _ _ _ Hnd'), Hkeys, Hgroup. simpl.
  rewrite elem_of_nil. split.
  - intros [[[]|Hne] <-]. done.
  - intros [-> Hne]. tauto.
Qed.

Lemma sequential_group_report (base : string) (ms : list (string * Z))
    (p : name_pattern) :
  sequential_group (base, ms) = Some p ↔
  (2 <= length ms)%nat ∧
  gaps_at_most_3 (map snd (sort_by_number ms)) ∧
  p = sequential_report base (sort_by_number ms).
Proof.
  unfold sequential_group, sequential_report, len.
  destruct (Z.leb_spec 2 (Z.of_nat (length ms))) as [Hlen|Hlen].
  - destruct (is_sequential (map snd (sort_by_number ms))) eqn:Hseq.
    + apply is_sequential_gaps in Hseq. split.
      * intros [= <-]. split; [lia|done].
      * by intros (_ & _ & ->).
    + split; [done|]. intros (_ & Hgaps & _).
      apply is_sequential_gaps in Hgaps. congruence.
  - split; [done|]. intros (? & _). lia.
Qed.

(** C7, counterexample: the detector does not group by an alphabetic
    prefix. ["x_1"] and ["x_2"] have no alphabetic prefix before their
    digits, yet the code groups them under ["x_"] and reports them. *)
Lemma C7_prefix_not_alphabetic :
  alphabetic_split "x_1" = None ∧
  alphabetic_split "x_2" = None ∧
  re_match_base_number "x_1" = Some ("x_", "1") ∧
  map np_usernames (sequential_patterns ["x_1"; "x_2"]) = [["x_1"; "x_2"]].
Proof. repeat split; vm_compute; reflexivity. Qed.

Lemma get_names_users_named (names : list string) :
  get_names (users_named names) = Ret names.
Proof.
  induction names as [|n names IH]; [done|].
  change (users_named (n :: names))
    with (<["name" := PStr n]> ∅ :: users_named names).
  cbn [get_names]. unfold get_name. rewrite lookup_insert_eq, IH. done.
Qed.

Lemma affix_patterns_type (usernames : list string) (p : name_pattern) :
  p ∈ affix_patterns usernames → np_type p ≠ "Sequential Numbers".
Proof.
  unfold affix_patterns. rewrite elem_of_app, !list_elem_of_omap.
  intros [([k l] & _ & Hp)|([k l] & _ & Hp)]; simpl in Hp;
    destruct (3 <=? len l); by simplify_eq.
Qed.

Lemma substitution_patterns_type (set_iter : list string → list string)
    (usernames : list string) (p : name_pattern) :
  p ∈ substitution_patterns set_iter usernames →
  np_type p ≠ "Sequential Numbers".
Proof.
  unfold substitution_patterns.
  destruct (substitution_pairs usernames).
  - intros Hp. by apply elem_of_nil in Hp.
  - intros Hp. apply list_elem_of_singleton in Hp as ->. done.
Qed.

(** C7, amended. The regex splits a lower-cased name into the shortest
    prefix after which digits run to the end (any characters but a line
    feed, not letters only) and those digits. The detector keeps one group
    for each base that has members, holding the usernames with that base
    in the order of the list, and reports a group exactly when it has at
    least 2 members and, once sorted by number (a stable sort), every
    consecutive gap is at most 3; the reported usernames are the members
    in that order. These
    are all the Sequential Numbers patterns of the whole check.
    ["bot1", "bot2", "bot3"] gives one such pattern with all three;
    ["bot1", "bot9"] none. *)
Theorem C7_sequential_numbering (set_iter : list string → list string)
    (usernames : list string) :
  (∀ s base digits,
     re_match_base_number s = Some (base, digits) ↔
     trailing_number_split s base digits) ∧
  NoDup (map fst (number_base_groups usernames)) ∧
  (∀ base ms,
     (base, ms) ∈ number_base_groups usernames ↔
     ms = members usernames base ∧ ms ≠ []) ∧
  (∀ p,
     p ∈ sequential_patterns usernames ↔
     ∃ base,
       (2 <= length (members usernames base))%nat ∧
       gaps_at_most_3 (map snd (sort_by_number (members usernames base))) ∧
       p = sequential_report base (sort_by_number (members usernames base))) ∧
  (∀ l, sort_by_number l ≡ₚ l ∧ ascending (sort_by_number l) ∧
        ∀ n, List.filter (λ y, snd y =? n) (sort_by_number l) =
             List.filter (λ y, snd y =? n) l) ∧
  (∃ others,
     check_username_generation_patterns set_iter (users_named usernames)
     = Ret (sequential_patterns usernames ++ others)%list ∧
     ∀ p, p ∈ others → np_type p ≠ "Sequential Numbers") ∧
  check_username_generation_patterns set_iter
    (users_named ["bot1"; "bot2"; "bot3"]) =
    Ret [ {| np_type := "Sequential Numbers";
             np_pattern := "bot[numbers]";
             np_usernames := ["bot1"; "bot2"; "bot3"];
             np_description :=
               "Sequential numbering pattern: bot1, bot2, bot3" |} ] ∧
  check_username_generation_patterns set_iter
    (users_named ["bot1"; "bot9"]) = Ret [].
Proof.
  destruct (number_base_groups_members usernames) as [Hnd Hgroups].
  split; [apply re_match_base_number_split|].
  split; [exact Hnd|]. split; [exact Hgroups|].
  split; [|split; [|split; [|split]]].
  - intros p. unfold sequential_patterns. rewrite list_elem_of_omap. split.
    + intros ([base ms] & Hin & Hp).
      apply Hgroups in Hin as [-> _].
      apply sequential_group_report in Hp. by exists base.
    + intros (base & Hlen & Hgaps & ->).
      exists (base, members usernames base). split.
      * apply Hgroups. split; [done|].
        destruct (members usernames base); [simpl in Hlen; lia|done].
      * by apply sequential_group_report.
  - intros l. split; [apply sort_by_number_perm|].
    split; [apply sort_by_number_ascending|]. intros n.
    apply sort_by_number_stable.
  - unfold check_username_generation_patterns.
    destruct usernames as [|u us].
    { exists []. split; [done|]. intros p Hp. by apply elem_of_nil in Hp. }
    change (users_named (u :: us))
      with (<["name" := PStr u]> ∅ :: users_named us) at 1.
    cbv iota. rewrite get_names_users_named. simpl rbind.
    eexists. split; [reflexivity|].
    intros p Hp. apply elem_of_app in Hp as [Hp|Hp].
    + by eapply affix_patterns_type.
    + by eapply substitution_patterns_type.
  - vm_compute. reflexivity.
  - vm_compute. reflexivity.
Qed.

(** The witness of C7: names in mixed case whose numbers arrive
    unsorted, among others. *)
Lemma C7_sequential_numbering_witness :
  sequential_report "bot" [("bot1", 1); ("BOT2", 2); ("Bot3", 3)]
  ∈ sequential_patterns ["Bot3"; "x"; "bot1"; "al1ce"; "BOT2"].
Proof.
  destruct (C7_sequential_numbering (λ l, l)
              ["Bot3"; "x"; "bot1"; "al1ce"; "BOT2"])
    as (_ & _ & _ & Hp & _).
  apply Hp. exists "bot".
  split; [vm_compute; lia|]. split; [|vm_compute; reflexivity].
  apply is_sequential_gaps. vm_compute. reflexivity.
Defined.

(** ** The configuration is not read *)

(** C9, as the code has it: with every analysis setting overridden, each
    check still uses its hard-coded value. Twenty badges are flagged
    although the configured threshold is 10; an account 60 days old is
    flagged although the configured age is 30 days; a 25% score is Low
    although the configured boundaries are 10 and 20; the configured token
    and badge id are not matched, the built-in ones still are. *)
Theorem C9_configuration_not_consumed :
  let cfg := overridden_config in
  let analyzer := analyzer_of_process cfg in
  check_badge_count twenty_badges = true ∧
  configured_badge_count_flag cfg twenty_badges = false ∧
  (∀ H : DatetimeLib,
     check_account_age (day 100) (PDatetime (day 40)) = Ret true) ∧
  configured_account_age_flag cfg (day 100) (day 40) = false ∧
  calculate_threat_level young_account_only = "Low" ∧
  configured_verdict cfg (threat_percentage young_account_only) = "High" ∧
  suspicious_patterns analyzer = SUSPICIOUS_PATTERNS ROBLOX_CONFIG_default ∧
  suspicious_patterns analyzer ≠ SUSPICIOUS_PATTERNS cfg ∧
  check_suspicious_names analyzer (users_named ["clan_leader"]) = Ret [] ∧
  check_specific_badges analyzer [ <["id" := PInt 1]> ∅ ] = [] ∧
  length (check_specific_badges analyzer
            [ <["id" := PInt 3006399776257311]> ∅ ]) = 1%nat.
Proof.
  intros cfg analyzer.
  repeat split; try (vm_compute; reflexivity); try discriminate.
Qed.

(** ** The rational model of the score is robust *)

Lemma Qdiv_inject_pos (n : Z) (p : positive) :
  (inject_Z n / inject_Z (Z.pos p) == n # p)%Q.
Proof. unfold Qeq, Qdiv, Qmult, Qinv, inject_Z. simpl. lia. Qed.

Lemma contribution_min (n w : Z) (p : positive) :
  (contribution n (Z.pos p) w == (Z.min n (Z.pos p) * w) # p)%Q.
Proof.
  unfold contribution. rewrite Qdiv_inject_pos.
  destruct (Z.le_gt_cases n (Z.pos p)) as [Hle|Hgt].
  - rewrite Q.min_l by (unfold Qle; simpl; lia).
    rewrite Z.min_l by lia.
    unfold Qeq, Qmult, inject_Z. simpl. lia.
  - rewrite Q.min_r by (unfold Qle; simpl; lia).
    rewrite Z.min_r by lia.
    unfold Qeq, Qmult, inject_Z. simpl. lia.
Qed.

Lemma flag_min (b : bool) : Z.min (flag b) 1 = flag b.
Proof. by destruct b. Qed.

Lemma threat_percentage_sixths (r : analysis_results) :
  (threat_percentage r == (25 * score_sixths r) # 18)%Q.
Proof.
  rewrite threat_percentage_weighted. unfold weighted_score, score_sixths.
  rewrite !contribution_min, !flag_min.
  generalize (Z.min (len (suspicious_friends r)) 3),
             (Z.min (len (suspicious_followers r)) 2),
             (Z.min (len (suspicious_following r)) 2),
             (flag (account_age_flag r)), (flag (badge_count_flag r)),
             (Z.min (len (specific_badges_found r)) 3),
             (flag (avatar_flag r)).
  intros a b c d e f g.
  unfold Qeq, Qdiv, Qmult, Qplus, Qinv. simpl. lia.
Qed.

Lemma score_sixths_range (r : analysis_results) :
  0 <= score_sixths r <= 72.
Proof.
  unfold score_sixths, len, flag.
  destruct (account_age_flag r), (badge_count_flag r), (avatar_flag r); lia.
Qed.

Lemma Qle_bool_false (a b : Q) : Qle_bool a b = false → (b < a)%Q.
Proof.
  intros E. apply Qnot_le_lt. intros Hle.
  apply Qle_bool_iff in Hle. congruence.
Qed.

(** The exact percentage is a multiple of 25/18 between 0 and 100, and it
    stays 5/18 or more away from both verdict boundaries. So the verdict
    does not depend on the last digits of the score: every value less
    than 5/18 away from the exact percentage, put through the same two
    comparisons, gives the verdict of the exact one. *)
Theorem threat_percentage_margin (r : analysis_results) :
  ∃ k : Z,
    0 <= k <= 72 ∧
    (threat_percentage r == (25 * k) # 18)%Q ∧
    (0 <= threat_percentage r)%Q ∧ (threat_percentage r <= 100)%Q ∧
    ((threat_percentage r <= 40 - (5 # 18))%Q ∨
     (40 + (5 # 18) <= threat_percentage r)%Q) ∧
    ((threat_percentage r <= 70 - (5 # 18))%Q ∨
     (70 + (5 # 18) <= threat_percentage r)%Q) ∧
    (∀ q : Q,
       (threat_percentage r - (5 # 18) < q)%Q →
       (q < threat_percentage r + (5 # 18))%Q →
       (if Qle_bool 70 q then "High"
        else if Qle_bool 40 q then "Medium"
        else "Low") = calculate_threat_level r).
Proof.
  exists (score_sixths r).
  pose proof (score_sixths_range r) as Hk.
  pose proof (threat_percentage_sixths r) as Hp.
  split; [exact Hk|]. split; [exact Hp|].
  assert (Hmargin :
    (0 <= threat_percentage r)%Q ∧ (threat_percentage r <= 100)%Q ∧
    ((threat_percentage r <= 40 - (5 # 18))%Q ∨
     (40 + (5 # 18) <= threat_percentage r)%Q) ∧
    ((threat_percentage r <= 70 - (5 # 18))%Q ∨
     (70 + (5 # 18) <= threat_percentage r)%Q)).
  { rewrite !Hp. unfold Qle, Qplus, Qminus, Qopp. simpl.
    repeat split; lia. }
  destruct Hmargin as (H0 & H100 & H40 & H70).
  split; [exact H0|]. split; [exact H100|].
  split; [exact H40|]. split; [exact H70|].
  intros q Hlo Hhi. unfold calculate_threat_level.
  generalize dependent (threat_percentage r). intros pct _ _ _ H40 H70 Hlo Hhi.
  destruct (Qle_bool 70 q) eqn:Eq70, (Qle_bool 70 pct) eqn:Ep70,
           (Qle_bool 40 q) eqn:Eq40, (Qle_bool 40 pct) eqn:Ep40;
    try reflexivity; exfalso;
    repeat match goal with
           | E : Qle_bool _ _ = true |- _ => apply Qle_bool_iff in E
           | E : Qle_bool _ _ = false |- _ => apply Qle_bool_false in E
           end;
    destruct H40, H70; lra.
Qed.

(** The verdict in whole numbers: High from 51 sixths of a weight unit,
    Medium from 29 to 50, Low up to 28; counts above a factor's cap add
    nothing. *)
Theorem threat_level_by_sixths (r : analysis_results) :
  calculate_threat_level r =
  if 51 <=? score_sixths r then "High"
  else if 29 <=? score_sixths r then "Medium"
  else "Low".
Proof.
  unfold calculate_threat_level.
  pose proof (threat_percentage_sixths r) as Hp.
  assert (H70 : Qle_bool 70 (threat_percentage r) = (51 <=? score_sixths r)).
  { apply eq_true_iff_eq. rewrite Qle_bool_iff, Hp, Z.leb_le.
    unfold Qle. simpl. lia. }
  assert (H40 : Qle_bool 40 (threat_percentage r) = (29 <=? score_sixths r)).
  { apply eq_true_iff_eq. rewrite Qle_bool_iff, Hp, Z.leb_le.
    unfold Qle. simpl. lia. }
  by rewrite H70, H40.
Qed.

(** ** More on _rate_limited_request *)

(** One attempt sends at most one request and makes at most one backoff
    wait, of 1 to 8 time units. *)
Lemma attempt_body_bounds (srv : server) (url : string)
    (max_retries attempt : Z) (self : RobloxAPI) :
  0 <= attempt →
  ∃ new,
    (sent self <= sent (attempt_body srv url max_retries attempt self).1
     <= S (sent self))%nat ∧
    backoffs (trace (attempt_body srv url max_retries attempt self).1) =
      (backoffs (trace self) ++ new)%list ∧
    Forall (λ w, 1 <= w <= 8) new.
Proof.
  intros Hattempt.
  assert (Hwait : 1 <= Z.min 8 (2 ^ attempt) <= 8).
  { pose proof (Z.pow_pos_nonneg 2 attempt ltac:(lia) Hattempt). lia. }
  destruct (rate_limit_keeps self) as (Hs & Hn & Hb).
  unfold attempt_body, attempt_try, attempt_response, attempt_except.
  destruct (session (rate_limit self)).
  - rewrite Hn.
    destruct (srv (sent self)) as [took status body|took e].
    + destruct (status =? 200).
      * destruct body as [data|e]; [|destruct (attempt <? max_retries - 1)];
          simpl; exists []; rewrite ?backoffs_snoc, Hn, ?backoffs_snoc, Hb, ?app_nil_r;
          (split; [lia|]); (split; [reflexivity|constructor]).
      * destruct (status =? 429); [destruct (attempt <? max_retries - 1)|]; simpl.
        -- exists [Z.min 8 (2 ^ attempt)].
           rewrite backoffs_snoc, Hn, backoffs_snoc, Hb, app_nil_r.
           split; [lia|]. split; [reflexivity|].
           constructor; [exact Hwait|constructor].
        -- exists []. rewrite Hn, backoffs_snoc, Hb, !app_nil_r.
           split; [lia|]. split; [reflexivity|constructor].
        -- exists []. rewrite Hn, backoffs_snoc, Hb, !app_nil_r.
           split; [lia|]. split; [reflexivity|constructor].
    + destruct (attempt <? max_retries - 1); simpl;
        exists []; rewrite ?backoffs_snoc, Hn, ?backoffs_snoc, Hb, ?app_nil_r;
        (split; [lia|]); (split; [reflexivity|constructor]).
  - simpl. exists []. rewrite Hn, Hb, app_nil_r.
    split; [lia|]. split; [reflexivity|constructor].
Qed.

Lemma request_loop_bounds (srv : server) (url : string) (max_retries : Z)
    (attempts : list Z) (self : RobloxAPI) :
  Forall (λ a, 0 <= a) attempts →
  ∃ new,
    (sent self <= sent (request_loop srv url max_retries attempts self).1
     <= sent self + length attempts)%nat ∧
    backoffs (trace (request_loop srv url max_retries attempts self).1) =
      (backoffs (trace self) ++ new)%list ∧
    Forall (λ w, 1 <= w <= 8) new.
Proof.
  intros Hpos. revert self.
  induction Hpos as [|attempt rest Ha _ IH]; intros self.
  { simpl. exists []. rewrite app_nil_r.
    split; [lia|]. split; [reflexivity|constructor]. }
  cbn [request_loop].
  destruct (attempt_body_bounds srv url max_retries attempt self Ha)
    as (new1 & Hn1 & Hb1 & Hw1).
  destruct (attempt_body srv url max_retries attempt self) as [s1 r1].
  simpl in Hn1, Hb1.
  assert (Hstop : ∃ new,
            (sent self <= sent s1 <= sent self + length (attempt :: rest))%nat ∧
            backoffs (trace s1) = (backoffs (trace self) ++ new)%list ∧
            Forall (λ w, 1 <= w <= 8) new).
  { exists new1. simpl. split; [lia|]. split; [exact Hb1|exact Hw1]. }
  assert (Hgo : ∃ new,
            (sent self <= sent (request_loop srv url max_retries rest s1).1
             <= sent self + length (attempt :: rest))%nat ∧
            backoffs (trace (request_loop srv url max_retries rest s1).1) =
              (backoffs (trace self) ++ new)%list ∧
            Forall (λ w, 1 <= w <= 8) new).
  { destruct (IH s1) as (new2 & Hn2 & Hb2 & Hw2).
    exists (new1 ++ new2)%list. simpl. rewrite Hb2, Hb1, app_assoc.
    split; [lia|]. split; [reflexivity|]. by apply Forall_app. }
  destruct r1 as [[| |v]|e]; simpl; assumption.
Qed.

Lemma range_nonneg (n : Z) : Forall (λ a, 0 <= a) (range n).
Proof.
  unfold range. apply Forall_forall. intros a Ha.
  apply list_elem_of_fmap in Ha as (k & -> & _). lia.
Qed.

(** A request sends at most [max_retries] requests, and every backoff
    wait it makes lasts between 1 and 8 time units. *)
Theorem request_sends_at_most_max_retries (srv : server) (url : string)
    (max_retries : Z) (self : RobloxAPI) :
  ∃ new,
    (sent self <= sent (rate_limited_request srv url max_retries self).1
     <= sent self + Z.to_nat max_retries)%nat ∧
    backoffs (trace (rate_limited_request srv url max_retries self).1) =
      (backoffs (trace self) ++ new)%list ∧
    Forall (λ w, 1 <= w <= 8) new.
Proof.
  unfold rate_limited_request.
  destruct (ensure_session_keeps self) as (_ & Hn0 & Ht0).
  destruct (request_loop_bounds srv url max_retries (range max_retries)
              (ensure_session self) (range_nonneg max_retries))
    as (new & Hn & Hb & Hw).
  exists new. rewrite range_length, Hn0 in Hn. rewrite Ht0 in Hb.
  split; [exact Hn|]. split; [exact Hb|exact Hw].
Qed.

(** With no attempt allowed the request sends nothing and returns
    [None]. *)
Theorem request_without_attempts (srv : server) (url : string)
    (max_retries : Z) (self : RobloxAPI) :
  max_retries <= 0 →
  rate_limited_request srv url max_retries self = (ensure_session self, Ret None).
Proof.
  intros Hm. unfold rate_limited_request, range.
  replace (Z.to_nat max_retries) with 0%nat by lia. reflexivity.
Qed.

Lemma request_without_attempts_witness :
  rate_limited_request always_ok "u" 0 (RobloxAPI_init 0)
  = (ensure_session (RobloxAPI_init 0), Ret None).
Proof. apply request_without_attempts. lia. Defined.





Lemma pauses_snoc (tr : list event) (ev : event) :
  pauses (tr ++ [ev]) =
  (pauses tr ++ match ev with SleptPause d => [d] | _ => [] end)%list.
Proof. unfold pauses. rewrite omap_app. by destruct ev. Qed.

Lemma rate_limit_pauses (self : RobloxAPI) :
  pauses (trace (rate_limit self)) = pauses (trace self).
Proof.
  unfold rate_limit. destruct (Qlt_bool _ _); simpl; [|done].
  rewrite pauses_snoc. by rewrite app_nil_r.
Qed.

(** The attempts [a, a+1, ..., a+k-1] against a transport that always
    fails, when they are the last [k] attempts of [max_retries]. *)
Lemma request_loop_unreachable (srv : server) (url : string)
    (max_retries : Z) (k a : nat) (self : RobloxAPI) :
  unreachable srv →
  session self = true →
  Z.of_nat (a + k) = max_retries →
  ∃ self',
    request_loop srv url max_retries (map Z.of_nat (seq a k)) self
      = (self', Ret None) ∧
    sent self' = (sent self + k)%nat ∧
    backoffs (trace self') = backoffs (trace self) ∧
    pauses (trace self') = (pauses (trace self) ++ repeat 1 (k - 1))%list.
Proof.
  intros Hsrv. revert a self.
  induction k as [|k IH]; intros a self Hs Hm.
  { simpl. exists self. rewrite app_nil_r. split; [done|]. split; [lia|done]. }
  cbn [seq map request_loop]. unfold attempt_body, attempt_try, attempt_response, attempt_except.
  destruct (rate_limit_keeps self) as (Hs' & Hn' & Hb').
  pose proof (rate_limit_pauses self) as Hp'.
  destruct (Hsrv (sent self)) as (took & e & Hr).
  rewrite Hs', Hs, Hn', Hr.
  destruct (Z.ltb_spec (Z.of_nat a) (max_retries - 1)) as [Hlt|Hge].
  - destruct k as [|k']; [lia|].
    edestruct (IH (S a)) as (s' & Hloop & Hn & Hb & Hp); [|lia|].
    2: { rewrite Hloop. exists s'. split; [reflexivity|].
         simpl in Hn, Hb, Hp.
         rewrite !backoffs_snoc, Hb', !app_nil_r in Hb.
         rewrite !pauses_snoc, Hp', app_nil_r, Nat.sub_0_r, <- app_assoc in Hp.
         rewrite Hn' in Hn.
         split; [lia|]. split; [exact Hb|].
         rewrite Hp. reflexivity. }
    simpl. by rewrite Hs'.
  - assert (k = 0%nat) as -> by lia.
    eexists. split; [reflexivity|]. simpl.
    rewrite Hn', backoffs_snoc, Hb', pauses_snoc, Hp', !app_nil_r.
    split; [lia|done].
Qed.

(** When the transport fails on every request, the request is retried
    until the attempts run out: [max_retries] requests are sent, with a
    pause of 1 time unit (and no backoff) between them, and the result is
    [None]. *)
Theorem request_unreachable (srv : server) (url : string)
    (max_retries : Z) (self : RobloxAPI) :
  unreachable srv →
  0 <= max_retries →
  ∃ self',
    rate_limited_request srv url max_retries self = (self', Ret None) ∧
    sent self' = (sent self + Z.to_nat max_retries)%nat ∧
    backoffs (trace self') = backoffs (trace self) ∧
    pauses (trace self') =
      (pauses (trace self) ++ repeat 1 (Z.to_nat max_retries - 1))%list.
Proof.
  intros Hsrv Hm. unfold rate_limited_request, range.
  destruct (ensure_session_keeps self) as (Hs0 & Hn0 & Ht0).
  destruct (request_loop_unreachable srv url max_retries
              (Z.to_nat max_retries) 0 (ensure_session self) Hsrv Hs0)
    as (s' & Hloop & Hn & Hb & Hp); [lia|].
  exists s'. rewrite Hn0 in Hn. rewrite Ht0 in Hb, Hp. done.
Qed.

Lemma request_unreachable_witness :
  ∃ self',
    rate_limited_request always_broken "u" 3 (RobloxAPI_init 0) = (self', Ret None) ∧
    sent self' = 3%nat ∧ pauses (trace self') = [1; 1].
Proof.
  assert (Hsrv : unreachable always_broken).
  { intros n. exists 0%Q, ClientError. reflexivity. }
  destruct (request_unreachable always_broken "u" 3 (RobloxAPI_init 0) Hsrv)
    as (self' & Hr & Hn & _ & Hp); [lia|].
  exists self'. split; [exact Hr|]. split; [exact Hn|exact Hp].
Defined.

(** The limiter works from the [last_request_time] it read before it
    went to sleep and does not look again when it wakes. If the loop wakes
    it no earlier than asked, the clock is then at least
    [rate_limit_delay] past that reading and has not moved back; nothing
    happens when that much time had passed already. [last_request_time]
    is what it was if no other coroutine stored one during the sleep; if
    one did, its value stands and the attempt goes ahead all the same. *)
Theorem rate_limit_spacing (self : RobloxAPI) :
  (0 <= elapsed (others self (awaits self)))%Q →
  (rate_limit_delay self <=
   clock (rate_limit self) - last_request_time self)%Q ∧
  (clock self <= clock (rate_limit self))%Q ∧
  ((rate_limit_delay self <= clock self - last_request_time self)%Q →
   rate_limit self = self) ∧
  (stamped (others self (awaits self)) = None →
   last_request_time (rate_limit self) = last_request_time self ∧
   (rate_limit_delay self <=
    clock (rate_limit self) - last_request_time (rate_limit self))%Q) ∧
  (∀ t,
     (clock self - last_request_time self < rate_limit_delay self)%Q →
     stamped (others self (awaits self)) = Some t →
     last_request_time (rate_limit self) = t) ∧
  rate_limit_delay (rate_limit self) = rate_limit_delay self.
Proof.
  intros Hel. unfold rate_limit, Qlt_bool.
  destruct (Qle_bool (rate_limit_delay self)
              (clock self - last_request_time self)) eqn:E; simpl.
  - apply Qle_bool_iff in E.
    split; [exact E|]. split; [apply Qle_refl|]. split; [done|].
    split; [done|]. split; [|done].
    intros t Hlt _. exfalso. exact (Qlt_not_le _ _ Hlt E).
  - assert (Hlt : (clock self - last_request_time self < rate_limit_delay self)%Q).
    { apply Qnot_le_lt. intros Hle. apply Qle_bool_iff in Hle. congruence. }
    split; [lra|]. split; [lra|].
    split; [intros Hle; exfalso; exact (Qlt_not_le _ _ Hlt Hle)|].
    split; [|split; [|done]].
    + intros ->. simpl. split; [done|lra].
    + intros t _ ->. done.
Qed.

(** Two requests gathered on a fresh client: the other one stores its
    stamp while this one sleeps, and this one goes out at the same
    time. *)
Lemma rate_limit_spacing_witness :
  let self :=
    shared_with (λ _, {| elapsed := 0; stamped := Some (15 # 10) |})
      (RobloxAPI_init 0) in
  last_request_time (rate_limit self) = 15 # 10 ∧
  (clock (rate_limit self) - last_request_time (rate_limit self)
   < rate_limit_delay self)%Q ∧
  rate_limit (RobloxAPI_init 2) = RobloxAPI_init 2.
Proof.
  intros self.
  destruct (rate_limit_spacing self) as (_ & _ & _ & _ & Hstamp & _).
  { discriminate. }
  split; [apply Hstamp; reflexivity|].
  split; [reflexivity|].
  destruct (rate_limit_spacing (RobloxAPI_init 2)) as (_ & _ & Hsame & _).
  { discriminate. }
  apply Hsame. discriminate.
Defined.

(** ** More on check_suspicious_names *)

Lemma get_lower_cases (u : pydict) (key : string) :
  (∃ s, str_field u key = Some s ∧ get_lower u key = Ret (Str.lower s)) ∨
  (str_field u key = None ∧ get_lower u key = Raise AttributeError).
Proof.
  unfold str_field, get_lower.
  destruct (default (PStr "") (u !! key)); eauto.
Qed.

Lemma match_first_pattern_inv (u o : pydict) (n d : string) (tokens : list string) :
  match_first_pattern u n d tokens = Some o →
  ∃ p, p ∈ tokens ∧ o = <["matched_pattern" := PStr (Str.upper p)]> u.
Proof.
  induction tokens as [|q tokens IH]; simpl; [done|].
  destruct (Str.contains q n || Str.contains q d).
  - intros [= <-]. exists q. split; [left|done].
  - intros Ho. destruct (IH Ho) as (p & Hp & ->).
    exists p. split; [by right|done].
Qed.

(** One record whose username or display name is not a string makes the
    whole check raise [AttributeError]: no partial list is returned. *)
Theorem suspicious_names_bad_record (self : ThreatAnalyzer) (users : list pydict) :
  Exists (λ u, ¬ named_record u) users →
  check_suspicious_names self users = Raise AttributeError.
Proof.
  unfold check_suspicious_names. generalize (@nil pydict) as acc.
  induction users as [|u users IH]; intros acc Hbad.
  { by apply Exists_nil in Hbad. }
  simpl.
  destruct (get_lower_cases u "name") as [(n & Hn & ->)|[Hn ->]]; [|done].
  simpl.
  destruct (get_lower_cases u "displayName") as [(d & Hd & ->)|[Hd ->]]; [|done].
  simpl.
  apply Exists_cons in Hbad as [Hu|Hrest].
  { exfalso. apply Hu. split; eauto. }
  destruct (match_first_pattern u _ _ _); by apply IH.
Qed.

Lemma suspicious_names_bad_record_witness :
  check_suspicious_names ThreatAnalyzer_init
    [ <["name" := PStr "xyris"]> ∅; <["name" := PInt 7]> ∅ ]
  = Raise AttributeError.
Proof.
  apply suspicious_names_bad_record.
  apply Exists_cons. right. apply Exists_cons. left.
  intros [[s Hs] _]. vm_compute in Hs. discriminate Hs.
Defined.

Lemma suspicious_names_loop_sound (self : ThreatAnalyzer)
    (users acc out : list pydict) :
  suspicious_names_loop self users acc = Ret out →
  ∃ new,
    out = (acc ++ new)%list ∧
    (length new <= length users)%nat ∧
    ∀ o, o ∈ new →
      ∃ u p, u ∈ users ∧ p ∈ suspicious_patterns self ∧
             o = <["matched_pattern" := PStr (Str.upper p)]> u.
Proof.
  revert acc. induction users as [|u users IH]; intros acc; simpl.
  { intros [= <-]. exists []. rewrite app_nil_r.
    split; [done|]. split; [done|]. intros o Ho. by apply elem_of_nil in Ho. }
  destruct (get_lower u "name") as [n|e]; [|done]. simpl.
  destruct (get_lower u "displayName") as [d|e]; [|done]. simpl.
  destruct (match_first_pattern u n d (suspicious_patterns self)) as [o1|] eqn:Hm.
  - intros Hloop. destruct (IH _ Hloop) as (new & -> & Hlen & Hnew).
    exists (o1 :: new). rewrite <- app_assoc. split; [done|].
    split; [simpl; lia|].
    intros o Ho. apply elem_of_cons in Ho as [->|Ho].
    + destruct (match_first_pattern_inv _ _ _ _ _ Hm) as (p & Hp & ->).
      exists u, p. split; [left|done].
    + destruct (Hnew o Ho) as (u' & p & Hu' & Hp & ->).
      exists u', p. split; [by right|done].
  - intros Hloop. destruct (IH _ Hloop) as (new & -> & Hlen & Hnew).
    exists new. split; [done|]. split; [lia|].
    intros o Ho. destruct (Hnew o Ho) as (u' & p & Hu' & Hp & ->).
    exists u', p. split; [by right|done].
Qed.

(** Whatever the token list, a flagged record is a copy of an input
    record with [matched_pattern] set to an upper-cased token: every
    other field is kept, a [matched_pattern] the input already had is
    replaced, and no more records come out than went in. *)
Theorem suspicious_names_keeps_fields (self : ThreatAnalyzer)
    (users out : list pydict) :
  check_suspicious_names self users = Ret out →
  (length out <= length users)%nat ∧
  ∀ o, o ∈ out →
    ∃ u p, u ∈ users ∧ p ∈ suspicious_patterns self ∧
      o !! "matched_pattern" = Some (PStr (Str.upper p)) ∧
      ∀ key, key ≠ "matched_pattern" → o !! key = u !! key.
Proof.
  intros Hout.
  destruct (suspicious_names_loop_sound self users [] out Hout)
    as (new & -> & Hlen & Hnew).
  split; [exact Hlen|]. intros o Ho.
  destruct (Hnew o Ho) as (u & p & Hu & Hp & ->).
  exists u, p. split; [done|]. split; [done|].
  split; [apply lookup_insert_eq|].
  intros key Hkey. by apply lookup_insert_ne.
Qed.

Lemma suspicious_names_keeps_fields_witness :
  ∃ out, check_suspicious_names ThreatAnalyzer_init sample_relations = Ret out ∧
         (length out <= length sample_relations)%nat.
Proof.
  assert (E : check_suspicious_names ThreatAnalyzer_init sample_relations =
              Ret [ <["matched_pattern" := PStr "XYRIS"]>
                      (<["name" := PStr "XyRiS_sc"]> (<["displayName" := PStr "Bob"]> ∅));
                    <["matched_pattern" := PStr "DT"]>
                      (<["name" := PStr "carol"]> (<["displayName" := PStr "the ADT"]> ∅)) ]).
  { vm_cast_no_check (@eq_refl (res (list pydict))
      (check_suspicious_names ThreatAnalyzer_init sample_relations)). }
  eexists. split; [exact E|].
  exact (proj1 (suspicious_names_keeps_fields _ _ _ E)).
Defined.

(** ** More on _check_character_substitution_similarity *)

Lemma strlen_cons (c : ascii) (s : string) : strlen (String c s) = 1 + strlen s.
Proof. unfold strlen. simpl String.length. lia. Qed.

Lemma strlen_nonneg (s : string) : 0 <= strlen s.
Proof. unfold strlen. lia. Qed.

Lemma strlen_zero (s : string) : strlen s = 0 ↔ s = "".
Proof.
  destruct s as [|c s]; [done|]. rewrite strlen_cons.
  pose proof (strlen_nonneg s). split; [lia|done].
Qed.

Lemma positional_matches_bounds (a b : string) :
  0 <= positional_matches a b <= Z.min (strlen a) (strlen b).
Proof.
  revert b. induction a as [|x a IH]; intros [|y b]; simpl positional_matches;
    rewrite ?strlen_cons;
    try (pose proof (strlen_nonneg a)); try (pose proof (strlen_nonneg b));
    try (unfold strlen; simpl; lia).
  specialize (IH b). destruct (Ascii.eqb x y); lia.
Qed.

Lemma positional_matches_comm (a b : string) :
  positional_matches a b = positional_matches b a.
Proof.
  revert b. induction a as [|x a IH]; intros [|y b]; simpl; try done.
  by rewrite IH, Ascii.eqb_sym.
Qed.

Lemma positional_matches_refl (a : string) : positional_matches a a = strlen a.
Proof.
  induction a as [|x a IH]; [done|].
  simpl positional_matches. rewrite strlen_cons, Ascii.eqb_refl, IH. done.
Qed.

Lemma positional_matches_full (a b : string) :
  positional_matches a b = Z.max (strlen a) (strlen b) → a = b.
Proof.
  revert b. induction a as [|x a IH]; intros [|y b]; simpl positional_matches;
    rewrite ?strlen_cons.
  - done.
  - pose proof (strlen_nonneg b). unfold strlen at 1. simpl. lia.
  - pose proof (strlen_nonneg a). unfold strlen at 2. simpl. lia.
  - pose proof (positional_matches_bounds a b) as Hb.
    destruct (Ascii.eqb_spec x y) as [->|Hxy]; [|lia].
    intros Hfull. f_equal. apply IH. lia.
Qed.

(** The similarity as a fraction of the longer length, for two non-empty
    names. *)
Lemma similarity_fraction (username1 username2 : string) :
  username1 ≠ "" → username2 ≠ "" →
  (check_character_substitution_similarity username1 username2 ==
   positional_matches (normalize_username username1)
                      (normalize_username username2)
   # Z.to_pos (Z.max (strlen username1) (strlen username2)))%Q.
Proof.
  intros H1 H2.
  assert (Hl1 : 0 < strlen username1).
  { pose proof (strlen_nonneg username1). pose proof (strlen_zero username1).
    destruct (Z.eq_dec (strlen username1) 0); [tauto|lia]. }
  assert (Hl2 : 0 < strlen username2).
  { pose proof (strlen_nonneg username2). pose proof (strlen_zero username2).
    destruct (Z.eq_dec (strlen username2) 0); [tauto|lia]. }
  unfold check_character_substitution_similarity.
  rewrite count_matches_positional.
  assert (Hn : ∀ s, strlen (normalize_username s) = strlen s).
  { intros s. rewrite normalize_username_leet. unfold strlen.
    by rewrite str_map_length. }
  rewrite !Hn.
  destruct (Z.eqb_spec (strlen username1) 0) as [|_]; [lia|].
  destruct (Z.eqb_spec (strlen username2) 0) as [|_]; [lia|].
  simpl orb. cbv iota.
  destruct (Z.max (strlen username1) (strlen username2)) as [|p|p] eqn:Hmax;
    [lia| |lia].
  simpl Z.ltb. cbv iota. simpl Z.to_pos. apply Qdiv_inject_pos.
Qed.

Lemma similarity_empty (username1 username2 : string) :
  username1 = "" ∨ username2 = "" →
  check_character_substitution_similarity username1 username2 = 0%Q.
Proof.
  intros Hempty. unfold check_character_substitution_similarity.
  assert (Hn : ∀ s, strlen (normalize_username s) = strlen s).
  { intros s. rewrite normalize_username_leet. unfold strlen.
    by rewrite str_map_length. }
  rewrite !Hn.
  destruct Hempty as [-> | ->]; [reflexivity|].
  by rewrite orb_true_r.
Qed.

(** The similarity is a number between 0 and 1 that does not depend on
    the order of the two names, and it is at most the ratio of the shorter
    length to the longer one. *)
Theorem similarity_range_symmetric (username1 username2 : string) :
  (0 <= check_character_substitution_similarity username1 username2)%Q ∧
  (check_character_substitution_similarity username1 username2 <= 1)%Q ∧
  (check_character_substitution_similarity username1 username2 ==
   check_character_substitution_similarity username2 username1)%Q ∧
  (check_character_substitution_similarity username1 username2 *
     inject_Z (Z.max (strlen username1) (strlen username2))
   <= inject_Z (Z.min (strlen username1) (strlen username2)))%Q.
Proof.
  destruct (string_dec username1 "") as [->|H1].
  { rewrite !similarity_empty by tauto.
    pose proof (strlen_nonneg username2).
    repeat split; try (unfold Qle; simpl; lia); try reflexivity.
    unfold Qle, Qmult, inject_Z. simpl. change (strlen "") with 0. lia. }
  destruct (string_dec username2 "") as [->|H2].
  { rewrite !similarity_empty by tauto.
    pose proof (strlen_nonneg username1).
    repeat split; try (unfold Qle; simpl; lia); try reflexivity.
    unfold Qle, Qmult, inject_Z. simpl. change (strlen "") with 0. lia. }
  rewrite !similarity_fraction by done.
  pose proof (positional_matches_bounds (normalize_username username1)
                (normalize_username username2)) as Hb.
  assert (Hn : ∀ s, strlen (normalize_username s) = strlen s).
  { intros s. rewrite normalize_username_leet. unfold strlen.
    by rewrite str_map_length. }
  rewrite !Hn in Hb.
  assert (Hl1 : 0 < strlen username1).
  { pose proof (strlen_nonneg username1). pose proof (strlen_zero username1).
    destruct (Z.eq_dec (strlen username1) 0); [tauto|lia]. }
  assert (Hl2 : 0 < strlen username2).
  { pose proof (strlen_nonneg username2). pose proof (strlen_zero username2).
    destruct (Z.eq_dec (strlen username2) 0); [tauto|lia]. }
  rewrite (positional_matches_comm (normalize_username username2)).
  rewrite (Z.max_comm (strlen username2)).
  set (m := positional_matches _ _) in *.
  destruct (Z.max (strlen username1) (strlen username2)) as [|p|p] eqn:Hmax;
    [lia| |lia].
  simpl Z.to_pos.
  split; [unfold Qle; simpl; lia|].
  split; [unfold Qle; simpl; lia|].
  split; [reflexivity|].
  unfold Qle, Qmult, inject_Z. simpl. nia.
Qed.

Lemma normalize_username_strlen (s : string) :
  strlen (normalize_username s) = strlen s.
Proof.
  rewrite normalize_username_leet. unfold strlen. by rewrite str_map_length.
Qed.

Lemma similarity_same_normal_form (username1 username2 : string) :
  username1 ≠ "" →
  normalize_username username1 = normalize_username username2 →
  (check_character_substitution_similarity username1 username2 == 1)%Q.
Proof.
  intros H1 Heq.
  assert (Hlen : strlen username1 = strlen username2).
  { by rewrite <- (normalize_username_strlen username1), Heq,
       normalize_username_strlen. }
  assert (H2 : username2 ≠ "").
  { intros ->. by apply H1, strlen_zero. }
  rewrite similarity_fraction by done.
  assert (Hl1 : 0 < strlen username1).
  { pose proof (strlen_nonneg username1). pose proof (strlen_zero username1).
    destruct (Z.eq_dec (strlen username1) 0); [tauto|lia]. }
  rewrite Heq, positional_matches_refl, normalize_username_strlen.
  destruct (Z.max (strlen username1) (strlen username2)) as [|p|p] eqn:Hmax;
    [lia| |lia].
  simpl Z.to_pos. unfold Qeq. simpl. lia.
Qed.

(** The similarity is 1 exactly for two non-empty names with the same
    normalised form. *)
Theorem similarity_one_iff (username1 username2 : string) :
  (check_character_substitution_similarity username1 username2 == 1)%Q ↔
  username1 ≠ "" ∧ normalize_username username1 = normalize_username username2.
Proof.
  split; [|intros [H1 Heq]; by apply similarity_same_normal_form].
  destruct (string_dec username1 "") as [->|H1].
  { rewrite similarity_empty by tauto. discriminate. }
  destruct (string_dec username2 "") as [->|H2].
  { rewrite similarity_empty by tauto. discriminate. }
  rewrite similarity_fraction by done.
  assert (Hl1 : 0 < strlen username1).
  { pose proof (strlen_nonneg username1). pose proof (strlen_zero username1).
    destruct (Z.eq_dec (strlen username1) 0); [tauto|lia]. }
  destruct (Z.max (strlen username1) (strlen username2)) as [|p|p] eqn:Hmax;
    [lia| |lia].
  simpl Z.to_pos. intros Hone. split; [done|].
  apply positional_matches_full. rewrite !normalize_username_strlen, Hmax.
  unfold Qeq in Hone. simpl in Hone. lia.
Qed.

(** ** Pattern 3 of check_username_generation_patterns *)

Lemma similarity_test (username1 username2 u1 u2 : string) :
  (if Qle_bool (check_character_substitution_similarity
                  (Str.lower username1) (Str.lower username2)) (8 # 10)
   then None else Some (username1, username2)) = Some (u1, u2) ↔
  username1 = u1 ∧ username2 = u2 ∧
  (8 # 10 < check_character_substitution_similarity
              (Str.lower u1) (Str.lower u2))%Q.
Proof.
  destruct (Qle_bool _ _) eqn:E.
  - apply Qle_bool_iff in E. split; [discriminate|].
    intros (-> & -> & Hlt). exfalso. exact (Qlt_not_le _ _ Hlt E).
  - assert (Hlt : (8 # 10 < check_character_substitution_similarity
                              (Str.lower username1) (Str.lower username2))%Q).
    { apply Qnot_le_lt. intros Hle. apply Qle_bool_iff in Hle. congruence. }
    split.
    + intros [= <- <-]. done.
    + intros (-> & -> & _). done.
Qed.

Lemma substitution_pairs_complete (usernames : list string) (i j : nat)
    (u1 u2 : string) :
  (i < j)%nat →
  usernames !! i = Some u1 → usernames !! j = Some u2 →
  (8 # 10 < check_character_substitution_similarity
              (Str.lower u1) (Str.lower u2))%Q →
  (u1, u2) ∈ substitution_pairs usernames.
Proof.
  revert i j. induction usernames as [|u later IH]; intros i j Hij Hi Hj Hsim.
  { done. }
  simpl substitution_pairs. rewrite elem_of_app, list_elem_of_omap.
  destruct j as [|j]; [lia|]. simpl in Hj.
  destruct i as [|i]; simpl in Hi.
  - left. injection Hi as ->. exists u2.
    split; [by eapply list_elem_of_lookup_2|].
    by apply similarity_test.
  - right. apply (IH i j); [lia|done..].
Qed.

(** The pairs of Pattern 3 are exactly the pairs of names at positions
    [i < j] of the list whose lower-cased forms are more than 80% similar;
    each such pair is listed with the earlier name first. *)
Theorem substitution_pairs_iff (usernames : list string) (u1 u2 : string) :
  (u1, u2) ∈ substitution_pairs usernames ↔
  ∃ i j : nat, (i < j)%nat ∧
    usernames !! i = Some u1 ∧ usernames !! j = Some u2 ∧
    (8 # 10 < check_character_substitution_similarity
                (Str.lower u1) (Str.lower u2))%Q.
Proof.
  split.
  2: { intros (i & j & Hij & Hi & Hj & Hsim).
       by apply (substitution_pairs_complete usernames i j). }
  induction usernames as [|u later IH]; simpl substitution_pairs.
  { intros H. by apply elem_of_nil in H. }
  rewrite elem_of_app, list_elem_of_omap.
  intros [(x & Hx & Hsim)|Hlater].
  - apply similarity_test in Hsim as (-> & -> & Hsim).
    apply list_elem_of_lookup_1 in Hx as [k Hk].
    exists 0%nat, (S k). split; [lia|done].
  - destruct (IH Hlater) as (i & j & Hij & Hi & Hj & Hsim).
    exists (S i), (S j). split; [lia|done].
Qed.

Lemma str_lower_nonempty (s : string) : s ≠ "" → Str.lower s ≠ "".
Proof. by destruct s. Qed.

(** Two records of the list with the same non-empty name, or with names
    that differ only by letter case or by the digit-for-letter
    substitutions, always produce the Character Substitution pattern. *)
Theorem substitution_patterns_same_normal_form
    (set_iter : list string → list string) (usernames : list string)
    (i j : nat) (u1 u2 : string) :
  (i < j)%nat →
  usernames !! i = Some u1 →
  usernames !! j = Some u2 →
  u1 ≠ "" →
  normalize_username (Str.lower u1) = normalize_username (Str.lower u2) →
  ∃ p, substitution_patterns set_iter usernames = [p] ∧
       np_type p = "Character Substitution".
Proof.
  intros Hij Hi Hj Hne Hnorm.
  assert (Hin : (u1, u2) ∈ substitution_pairs usernames).
  { apply (substitution_pairs_complete usernames i j); [done..|].
    assert (Hone : (check_character_substitution_similarity
                      (Str.lower u1) (Str.lower u2) == 1)%Q).
    { apply similarity_same_normal_form; [by apply str_lower_nonempty|done]. }
    rewrite Hone. reflexivity. }
  unfold substitution_patterns.
  destruct (substitution_pairs usernames) as [|pr prs].
  { by apply elem_of_nil in Hin. }
  eexists. split; reflexivity.
Qed.

Lemma substitution_patterns_same_normal_form_witness :
  ∃ p, substitution_patterns (λ l, l) ["Leet"; "other"; "l33t"] = [p] ∧
       np_type p = "Character Substitution".
Proof.
  apply (substitution_patterns_same_normal_form (λ l, l)
           ["Leet"; "other"; "l33t"] 0 2 "Leet" "l33t").
  - lia.
  - reflexivity.
  - reflexivity.
  - discriminate.
  - reflexivity.
Defined.

(** ** More on check_creation_date_patterns *)

Section CreationDatePatterns.
Context `{DatetimeLib}.

(** One turn of the loop never raises; what it reports carries the
    record's name and its date as it was given, and a gap of 0 to 7. *)
Lemma creation_date_step_entry (user_date : datetime) (friend_data : pydict) :
  ∃ found, creation_date_step user_date friend_data = Ret found ∧
    ∀ entry, found = Some entry →
      0 <= spa_days_apart entry <= 7 ∧
      spa_username entry = get_or_none friend_data "name" ∧
      spa_created_date entry = get_or_none friend_data "created_date" ∧
      truthy (spa_created_date entry) = true.
Proof.
  unfold creation_date_step.
  destruct (truthy (get_or_none friend_data "created_date")) eqn:Ht; simpl.
  2: { exists None. split; [done|]. intros entry Hentry. discriminate Hentry. }
  destruct (read_date (get_or_none friend_data "created_date")) as [fd|e]; simpl.
  2: { exists None. split; [done|]. intros entry Hentry. discriminate Hentry. }
  destruct (Z.leb_spec (Z.abs (sub_days user_date fd)) 7) as [Hle|Hgt]; simpl.
  2: { exists None. split; [done|]. intros entry Hentry. discriminate Hentry. }
  eexists. split; [reflexivity|].
  intros entry [= <-]. simpl. split; [lia|done].
Qed.

Lemma creation_date_loop_omap (user_date : datetime)
    (friends : list pydict) (acc : list same_period_account) :
  creation_date_loop user_date friends acc =
  Ret (acc ++ omap (λ friend_data,
                      match creation_date_step user_date friend_data with
                      | Ret found => found
                      | Raise _ => None
                      end) friends)%list.
Proof.
  revert acc. induction friends as [|f friends IH]; intros acc; simpl.
  { by rewrite app_nil_r. }
  destruct (creation_date_step_entry user_date f) as (found & -> & _). simpl.
  destruct found as [entry|]; rewrite IH; [|done].
  by rewrite <- app_assoc.
Qed.

Lemma omap_length_le {A B : Type} (f : A → option B) (l : list A) :
  (length (omap f l) <= length l)%nat.
Proof.
  induction l as [|x l IH]; simpl; [done|].
  change (list_omap A B f l) with (omap f l).
  destruct (f x); simpl; lia.
Qed.

(** The creation-date check never raises, whatever the dates look like.
    It reports at most one entry per record, each for a record with a
    non-empty date, with that record's name and date unchanged and a gap of
    0 to 7 days; a missing, empty or unreadable target date gives the empty
    list. *)
Theorem creation_date_patterns_total (user_created_date : pyval)
    (friends : list pydict) :
  ∃ out,
    check_creation_date_patterns user_created_date friends = Ret out ∧
    (length out <= length friends)%nat ∧
    (∀ entry, entry ∈ out →
       0 <= spa_days_apart entry <= 7 ∧
       truthy (spa_created_date entry) = true ∧
       ∃ friend_data, friend_data ∈ friends ∧
         spa_username entry = get_or_none friend_data "name" ∧
         spa_created_date entry = get_or_none friend_data "created_date") ∧
    (truthy user_created_date = false → out = []) ∧
    (raises (read_date user_created_date) → out = []).
Proof.
  assert (Hnil : ∃ out : list same_period_account,
            Ret [] = Ret out ∧ (length out <= length friends)%nat ∧
            (∀ entry, entry ∈ out →
               0 <= spa_days_apart entry <= 7 ∧
               truthy (spa_created_date entry) = true ∧
               ∃ friend_data, friend_data ∈ friends ∧
                 spa_username entry = get_or_none friend_data "name" ∧
                 spa_created_date entry = get_or_none friend_data "created_date") ∧
            (truthy user_created_date = false → out = []) ∧
            (raises (read_date user_created_date) → out = [])).
  { exists []. split; [done|]. split; [simpl; lia|].
    split; [|done]. intros entry Hentry. by apply elem_of_nil in Hentry. }
  unfold check_creation_date_patterns.
  destruct (truthy user_created_date) eqn:Ht; simpl; [|exact Hnil].
  destruct friends as [|f friends]; [exact Hnil|].
  destruct (read_date user_created_date) as [user_date|e] eqn:Hread;
    [|exact Hnil].
  cbv beta iota delta [rbind catch]. rewrite creation_date_loop_omap.
  eexists. split; [reflexivity|]. rewrite app_nil_l.
  split; [apply omap_length_le|].
  split; [|split; [done|by simpl]].
  intros entry Hentry.
  apply list_elem_of_omap in Hentry as (fd & Hfd & Hstep).
  destruct (creation_date_step_entry user_date fd) as (found & Hfound & Hprops).
  rewrite Hfound in Hstep. subst found.
  destruct (Hprops entry eq_refl) as (Hgap & Hname & Hdate & Htruthy).
  split; [exact Hgap|]. split; [exact Htruthy|].
  exists fd. done.
Qed.

(** With a readable target date and a record whose date can be read,
    the record is reported exactly when the target is at most 7 whole days
    older, or less than 8 days younger, than the record. *)
Theorem creation_date_window (user_created_date friend_created : pyval)
    (user_date friend_date : datetime)
    (friends : list pydict) (friend_data : pydict) :
  truthy user_created_date = true →
  read_date user_created_date = Ret user_date →
  friend_data ∈ friends →
  friend_data !! "created_date" = Some friend_created →
  truthy friend_created = true →
  read_date friend_created = Ret friend_date →
  ∃ out,
    check_creation_date_patterns user_created_date friends = Ret out ∧
    ({| spa_username := get_or_none friend_data "name";
        spa_created_date := friend_created;
        spa_days_apart := Z.abs (sub_days user_date friend_date) |} ∈ out ↔
     -7 * micros_per_day <= dt_micros user_date - dt_micros friend_date
       < 8 * micros_per_day).
Proof.
  intros Htu Hru Hin Hget Htf Hrf.
  unfold check_creation_date_patterns. rewrite Htu. simpl negb. cbv iota.
  destruct friends as [|f0 friends0] eqn:Hfriends.
  { by apply elem_of_nil in Hin. }
  rewrite <- Hfriends in *. clear Hfriends f0 friends0.
  rewrite Hru. cbv beta iota delta [rbind catch].
  rewrite creation_date_loop_omap.
  eexists. split; [reflexivity|].
  rewrite app_nil_l, list_elem_of_omap.
  pose proof (creation_date_step_readable user_date friend_date friend_data
                friend_created Hget Htf Hrf) as Hstep.
  split.
  - intros (f' & Hf' & Hentry).
    destruct (creation_date_step_entry user_date f') as (found & Hfound & Hprops).
    rewrite Hfound in Hentry. subst found.
    destruct (Hprops _ eq_refl) as (_ & _ & Hdate & _). simpl in Hdate.
    assert (Hget' : f' !! "created_date" = Some friend_created).
    { unfold get_or_none in Hdate.
      destruct (f' !! "created_date") as [v|]; simpl in Hdate; [by subst|].
      subst friend_created. discriminate Htf. }
    pose proof (creation_date_step_readable user_date friend_date f'
                  friend_created Hget' Htf Hrf) as Hstep'.
    rewrite Hfound in Hstep'.
    destruct (Z.leb_spec (-7 * micros_per_day)
                (dt_micros user_date - dt_micros friend_date)) as [H1|H1];
      destruct (Z.ltb_spec (dt_micros user_date - dt_micros friend_date)
                  (8 * micros_per_day)) as [H2|H2];
      simpl in Hstep'; try discriminate Hstep'.
    lia.
  - intros [H1 H2]. exists friend_data. split; [exact Hin|].
    rewrite Hstep.
    destruct (Z.leb_spec (-7 * micros_per_day)
                (dt_micros user_date - dt_micros friend_date)); [|lia].
    destruct (Z.ltb_spec (dt_micros user_date - dt_micros friend_date)
                (8 * micros_per_day)); [|lia].
    reflexivity.
Qed.

End CreationDatePatterns.

Lemma creation_date_window_witness :
  ∃ out,
    @check_creation_date_patterns canonical_datetime_lib (PDatetime (day 100))
      [ friend_created "a" (PDatetime (day 107));
        friend_created "b" (PDatetime (day 92)) ] = Ret out ∧
    ({| spa_username := PStr "b";
        spa_created_date := PDatetime (day 92);
        spa_days_apart := 8 |} ∈ out ↔
     -7 * micros_per_day <= dt_micros (day 100) - dt_micros (day 92)
       < 8 * micros_per_day).
Proof.
  apply (@creation_date_window canonical_datetime_lib
           (PDatetime (day 100)) (PDatetime (day 92)) (day 100) (day 92)
           [ friend_created "a" (PDatetime (day 107));
             friend_created "b" (PDatetime (day 92)) ]
           (friend_created "b" (PDatetime (day 92)))).
  - reflexivity.
  - reflexivity.
  - apply elem_of_cons. right. apply elem_of_cons. left. reflexivity.
  - reflexivity.
  - reflexivity.
  - reflexivity.
Defined.

(** ** The accessors built on the request *)

Lemma request_first_200 (srv : server) (url : string) (max_retries : Z)
    (self : RobloxAPI) (took : Q) (data : json) :
  0 < max_retries →
  srv (sent self) = Reply took 200 (Ret data) →
  ∃ self',
    rate_limited_request srv url max_retries self = (self', Ret (Some data)) ∧
    sent self' = S (sent self).
Proof.
  intros Hm Hr. unfold rate_limited_request.
  destruct (ensure_session_keeps self) as (Hs0 & Hn0 & _).
  destruct (request_loop_outcome srv url max_retries (range max_retries)
              (ensure_session self) Hs0)
    as (self' & v & -> & Hn & Hsome & _ & Hdecoded & _).
  rewrite Hn0 in Hn, Hsome, Hdecoded.
  destruct (range_pos max_retries Hm) as (rest & Hrange).
  rewrite Hrange in Hsome. specialize (Hsome ltac:(done)).
  destruct (Hdecoded (sent self) took data ltac:(lia) Hr) as [Hlast ->].
  by exists self'.
Qed.

Lemma request_unreachable_result (srv : server) (url : string)
    (self : RobloxAPI) :
  unreachable srv →
  ∃ self',
    rate_limited_request srv url 3 self = (self', Ret None) ∧
    sent self' = (sent self + 3)%nat.
Proof.
  intros Hsrv. unfold rate_limited_request, range.
  destruct (ensure_session_keeps self) as (Hs0 & Hn0 & _).
  destruct (request_loop_unreachable srv url 3 (Z.to_nat 3) 0
              (ensure_session self) Hsrv Hs0)
    as (s' & Hloop & Hn & _); [lia|].
  exists s'. rewrite Hn0 in Hn. done.
Qed.

Lemma field_or_empty_body (key : string) (body : json) :
  field_or_empty key (Some body) = expected_field key body.
Proof.
  unfold field_or_empty, expected_field, json_contains, json_item.
  destruct body as [|b|z|s|l|l]; simpl.
  - done.
  - by destruct b.
  - by destruct (z =? 0).
  - destruct (String.eqb s ""); simpl; [done|].
    by destruct (Str.contains key s).
  - destruct l as [|x l]; [done|]. unfold len. simpl length.
    replace (Z.of_nat (S (length l)) =? 0) with false
      by (symmetry; apply Z.eqb_neq; lia).
    simpl. by destruct (json_is_str x key || existsb _ l).
  - destruct l as [|[k v] l]; [done|]. unfold len. simpl length.
    replace (Z.of_nat (S (length l)) =? 0) with false
      by (symmetry; apply Z.eqb_neq; lia).
    simpl. destruct (String.eqb key k); [done|].
    by destruct (obj_lookup key l).
Qed.

Section Accessors.
Variable str_of_json : json → string.
Variable with_params : string → list (string * json) → string.

(** After a first reply of 200 with a decodable body every accessor has
    sent one request and answers with the member it is after, or the
    empty list; on a body that is a number other than zero, [true], or an
    array or string holding the key, it raises [TypeError] although the
    request itself never raises. *)
Theorem accessors_first_reply (srv : server) (user_id : json) (limit : Z)
    (self : RobloxAPI) (took : Q) (body : json) :
  srv (sent self) = Reply took 200 (Ret body) →
  (∃ self', get_user_friends str_of_json srv user_id limit self
            = (self', expected_field "data" body) ∧
            sent self' = S (sent self)) ∧
  (∃ self', get_user_followers str_of_json with_params srv user_id limit self
            = (self', expected_field "data" body) ∧
            sent self' = S (sent self)) ∧
  (∃ self', get_user_following str_of_json with_params srv user_id limit self
            = (self', expected_field "data" body) ∧
            sent self' = S (sent self)) ∧
  (∃ self', get_user_avatar str_of_json srv user_id self
            = (self', expected_field "assets" body) ∧
            sent self' = S (sent self)) ∧
  (∃ self', get_user_groups str_of_json srv user_id self
            = (self', expected_field "data" body) ∧
            sent self' = S (sent self)).
Proof.
  intros Hr.
  unfold get_user_friends, get_user_followers, get_user_following,
    get_user_avatar, get_user_groups.
  repeat split;
    match goal with
    | |- context [rate_limited_request srv ?url 3 self] =>
        destruct (request_first_200 srv url 3 self took body ltac:(lia) Hr)
          as (self' & -> & Hn)
    end;
    exists self'; (split; [|exact Hn]); cbv beta iota delta [rbind];
    by rewrite field_or_empty_body.
Qed.

(** When the transport fails on every request, every accessor answers
    with the empty list after its three attempts, never with [None] and
    never by raising; the empty badge list is then flagged as fewer than
    40 badges. *)
Theorem accessors_unreachable (srv : server) (user_id : json) (limit : Z)
    (self : RobloxAPI) :
  unreachable srv →
  (∃ self', get_user_friends str_of_json srv user_id limit self
            = (self', Ret (JArr [])) ∧ sent self' = (sent self + 3)%nat) ∧
  (∃ self', get_user_followers str_of_json with_params srv user_id limit self
            = (self', Ret (JArr [])) ∧ sent self' = (sent self + 3)%nat) ∧
  (∃ self', get_user_following str_of_json with_params srv user_id limit self
            = (self', Ret (JArr [])) ∧ sent self' = (sent self + 3)%nat) ∧
  (∃ self', get_user_avatar str_of_json srv user_id self
            = (self', Ret (JArr [])) ∧ sent self' = (sent self + 3)%nat) ∧
  (∃ self', get_user_groups str_of_json srv user_id self
            = (self', Ret (JArr [])) ∧ sent self' = (sent self + 3)%nat) ∧
  (∃ self', get_user_badges str_of_json with_params srv user_id self
            = (self', Ret []) ∧ sent self' = (sent self + 3)%nat) ∧
  check_badge_count [] = true.
Proof.
  intros Hsrv.
  unfold get_user_friends, get_user_followers, get_user_following,
    get_user_avatar, get_user_groups, get_user_badges.
  change (range 5) with [0; 1; 2; 3; 4]. cbn [badges_loop]. simpl json_truthy.
  cbv iota.
  repeat split;
    try match goal with
    | |- context [rate_limited_request srv ?url 3 self] =>
        destruct (request_unreachable_result srv url self Hsrv)
          as (self' & -> & Hn)
    end;
    exists self'; (split; [|exact Hn]); reflexivity.
Qed.

Lemma badges_page_object (l : list (string * json)) (items acc : list json) :
  obj_lookup "data" l = Some (JArr items) →
  badges_page (Some (JObj l)) acc =
  Ret ((acc ++ items)%list,
       match obj_lookup "nextPageCursor" l with
       | Some next => if json_truthy next then Some next else None
       | None => None
       end).
Proof.
  intros Hdata. unfold badges_page, json_contains, json_item, json_iter.
  assert (Htruthy : json_truthy (JObj l) = true).
  { destruct l as [|kv l]; [done|]. unfold json_truthy, len. simpl length.
    apply negb_true_iff, Z.eqb_neq. lia. }
  rewrite Htruthy, Hdata. simpl.
  destruct (obj_lookup "nextPageCursor" l) as [next|]; simpl; [|done].
  by destruct (json_truthy next).
Qed.

Lemma badges_loop_pages (srv : server) (user_id : json) (pages : list Z)
    (cursor : json) (acc : list json) (self : RobloxAPI) :
  (∀ n, badge_page_reply (srv n)) →
  ∃ self',
    badges_loop str_of_json with_params srv user_id pages cursor acc self
    = (self', Ret (acc ++ expected_badges srv (sent self) (length pages))%list) ∧
    sent self' = (sent self + expected_pages srv (sent self) (length pages))%nat.
Proof.
  intros Hpages. revert cursor acc self.
  induction pages as [|page pages IH]; intros cursor acc self.
  { simpl. exists self. rewrite app_nil_r. split; [done|lia]. }
  cbn [badges_loop length expected_badges expected_pages].
  destruct (Hpages (sent self)) as (took & l & items & Hr & Hdata).
  match goal with
  | |- context [rate_limited_request srv ?url 3 self] =>
      destruct (request_first_200 srv url 3 self took (JObj l) ltac:(lia) Hr)
        as (s1 & -> & Hn1)
  end.
  cbv beta iota delta [rbind]. rewrite (badges_page_object l items acc Hdata).
  unfold reply_items, has_next_page. rewrite Hr, Hdata.
  destruct (obj_lookup "nextPageCursor" l) as [next|].
  - destruct (json_truthy next).
    + destruct (IH next (acc ++ items)%list s1) as (s' & -> & Hn).
      exists s'. rewrite Hn1 in Hn. rewrite Hn1, <- app_assoc.
      split; [done|lia].
    + exists s1. rewrite app_nil_r. split; [done|lia].
  - exists s1. rewrite app_nil_r. split; [done|lia].
Qed.

Lemma expected_pages_bound (srv : server) (n pages : nat) :
  (expected_pages srv n pages <= pages)%nat.
Proof.
  revert n. induction pages as [|pages IH]; intros n; simpl; [lia|].
  destruct (has_next_page (srv n)); [specialize (IH (S n))|]; lia.
Qed.

Lemma expected_badges_bound (srv : server) (n pages : nat) (size : nat) :
  (∀ k, (length (reply_items (srv k)) <= size)%nat) →
  (length (expected_badges srv n pages) <= size * pages)%nat.
Proof.
  intros Hsize. revert n. induction pages as [|pages IH]; intros n; simpl.
  { lia. }
  rewrite length_app. specialize (Hsize n).
  destruct (has_next_page (srv n)); [specialize (IH (S n))|simpl]; lia.
Qed.

(** When every reply is a page of badges, [get_user_badges] returns the
    badges of the first page and of the pages that follow while each page
    names a next one, five pages at most, one request a page: with pages
    of at most 100 badges it never returns more than 500 of them, whatever
    the account holds. *)
Theorem get_user_badges_pages (srv : server) (user_id : json)
    (self : RobloxAPI) :
  (∀ n, badge_page_reply (srv n)) →
  ∃ self',
    get_user_badges str_of_json with_params srv user_id self
    = (self', Ret (expected_badges srv (sent self) 5)) ∧
    sent self' = (sent self + expected_pages srv (sent self) 5)%nat ∧
    (sent self' <= sent self + 5)%nat ∧
    ((∀ n, (length (reply_items (srv n)) <= 100)%nat) →
     (length (expected_badges srv (sent self) 5) <= 500)%nat).
Proof.
  intros Hpages. unfold get_user_badges.
  destruct (badges_loop_pages srv user_id (range 5) (JStr "") [] self Hpages)
    as (self' & Hloop & Hn).
  change (length (range 5)) with 5%nat in Hloop, Hn. rewrite app_nil_l in Hloop.
  exists self'. split; [exact Hloop|]. split; [exact Hn|].
  pose proof (expected_pages_bound srv (sent self) 5).
  split; [lia|]. intros Hsize.
  apply (expected_badges_bound srv (sent self) 5 100 Hsize).
Qed.

End Accessors.

Lemma accessors_first_reply_witness :
  ∃ self',
    get_user_friends (λ _, "1") always_seven (JNum 1) 200 (RobloxAPI_init 0)
    = (self', Raise TypeError) ∧
    sent self' = 1%nat.
Proof.
  destruct (accessors_first_reply (λ _, "1") (λ url _, url) always_seven
              (JNum 1) 200 (RobloxAPI_init 0) 0 (JNum 7) eq_refl)
    as ((self' & Hr & Hn) & _).
  exists self'. split; [exact Hr|exact Hn].
Defined.

Lemma accessors_unreachable_witness :
  ∃ self',
    get_user_badges (λ _, "1") (λ url _, url) always_broken (JNum 1)
      (RobloxAPI_init 0)
    = (self', Ret []) ∧
    sent self' = 3%nat.
Proof.
  assert (Hsrv : unreachable always_broken).
  { intros n. exists 0%Q, ClientError. reflexivity. }
  destruct (accessors_unreachable (λ _, "1") (λ url _, url) always_broken
              (JNum 1) 200 (RobloxAPI_init 0) Hsrv)
    as (_ & _ & _ & _ & _ & (self' & Hr & Hn) & _).
  exists self'. split; [exact Hr|exact Hn].
Defined.

Lemma get_user_badges_pages_witness :
  ∃ self' badges,
    get_user_badges (λ _, "1") (λ url _, url) (endless_pages 100) (JNum 1)
      (RobloxAPI_init 0)
    = (self', Ret badges) ∧
    sent self' = 5%nat ∧ length badges = 500%nat.
Proof.
  assert (Hpages : ∀ n, badge_page_reply (endless_pages 100 n)).
  { intros n. do 3 eexists. split; reflexivity. }
  destruct (get_user_badges_pages (λ _, "1") (λ url _, url) (endless_pages 100)
              (JNum 1) (RobloxAPI_init 0) Hpages)
    as (self' & Hr & Hn & _).
  exists self', (expected_badges (endless_pages 100) 0 5).
  split; [exact Hr|]. split; [exact Hn|]. vm_compute. reflexivity.
Defined.

(** ** check_default_avatar *)

Lemma asset_type_name_get (item : json) :
  (let* asset := json_get_default item "assetType" (JObj []) in
   json_get_default asset "name" (JStr "")) =
  match asset_type_name item with
  | Some name => Ret name
  | None => Raise AttributeError
  end.
Proof.
  unfold asset_type_name, json_get_default.
  destruct item as [| | | | |l]; try done. simpl.
  by destruct (default (JObj []) (obj_lookup "assetType" l)).
Qed.

Lemma paid_items_loop_cons (item : json) (rest : list json) (paid_items : Z) :
  paid_items_loop (item :: rest) paid_items =
  match asset_type_name item with
  | Some name =>
      if negb (existsb (json_is_str name) ["Shirt"; "Pants"; "TShirt"])
      then paid_items_loop rest (paid_items + 1)
      else paid_items_loop rest paid_items
  | None => Raise AttributeError
  end.
Proof.
  cbn [paid_items_loop].
  pose proof (asset_type_name_get item) as Hget.
  cbv beta iota delta [rbind] in Hget |- *.
  destruct (json_get_default item "assetType" (JObj [])) as [asset|e].
  - rewrite Hget. by destruct (asset_type_name item).
  - destruct (asset_type_name item); [done|]. by injection Hget as ->.
Qed.

Lemma paid_items_loop_count (items : list json) (paid_items : Z) :
  Forall (λ item, is_Some (asset_type_name item)) items →
  paid_items_loop items paid_items
  = Ret (paid_items + len (List.filter counts_as_paid items)).
Proof.
  intros Hall. revert paid_items.
  induction Hall as [|item rest [name Hname] _ IH]; intros paid_items.
  { simpl. f_equal. unfold len. simpl. lia. }
  rewrite paid_items_loop_cons, Hname. simpl List.filter.
  unfold counts_as_paid at 1. rewrite Hname.
  destruct (negb (existsb (json_is_str name) ["Shirt"; "Pants"; "TShirt"])).
  - rewrite IH. f_equal. unfold len. simpl length. lia.
  - apply IH.
Qed.

Lemma paid_items_loop_bad (items : list json) (paid_items : Z) :
  Exists (λ item, asset_type_name item = None) items →
  paid_items_loop items paid_items = Raise AttributeError.
Proof.
  intros Hbad. revert paid_items.
  induction Hbad as [item rest Hitem|item rest _ IH]; intros paid_items;
    rewrite paid_items_loop_cons.
  - by rewrite Hitem.
  - destruct (asset_type_name item) as [name|]; [|done].
    destruct (negb _); apply IH.
Qed.

Lemma filter_repeat_paid (n : nat) :
  List.filter counts_as_paid (repeat (JObj []) n) = repeat (JObj []) n.
Proof. induction n as [|n IH]; [done|]. simpl. by rewrite IH. Qed.

(** The avatar flag. On a list of items that are objects (with an
    object, if anything, as asset type) it is raised exactly when there
    are fewer than 5 items or fewer than 2 of them have an asset type
    other than Shirt, Pants and TShirt; an item that names no asset type
    counts among those, so 5 or more items without one are not flagged.
    No items at all, or none fetched, raise the flag; an item that is not
    an object makes the check raise [AttributeError]. *)
Theorem check_default_avatar_flag (self : ThreatAnalyzer) (items : list json) :
  (Forall (λ item, is_Some (asset_type_name item)) items →
   check_default_avatar self (JArr items)
   = Ret ((len items <? 5) || (len (List.filter counts_as_paid items) <? 2))) ∧
  (Exists (λ item, asset_type_name item = None) items →
   check_default_avatar self (JArr items) = Raise AttributeError) ∧
  check_default_avatar self (JArr []) = Ret true ∧
  check_default_avatar self JNull = Ret true ∧
  (∀ n : nat,
     check_default_avatar self (JArr (repeat (JObj []) n))
     = Ret (Z.of_nat n <? 5)).
Proof.
  assert (Hgood : ∀ l, Forall (λ item, is_Some (asset_type_name item)) l →
            check_default_avatar self (JArr l)
            = Ret ((len l <? 5) || (len (List.filter counts_as_paid l) <? 2))).
  { intros l Hall. unfold check_default_avatar.
    destruct l as [|item rest]; [done|].
    assert (Htruthy : json_truthy (JArr (item :: rest)) = true).
    { unfold json_truthy, len. simpl length. apply negb_true_iff, Z.eqb_neq. lia. }
    rewrite Htruthy. cbn [negb json_len json_iter rbind].
    rewrite (paid_items_loop_count _ 0 Hall). cbn [rbind]. by rewrite Z.add_0_l. }
  split; [apply Hgood|]. split; [|split; [done|split; [done|]]].
  - intros Hbad. unfold check_default_avatar.
    destruct items as [|item rest]; [by apply Exists_nil in Hbad|].
    assert (Htruthy : json_truthy (JArr (item :: rest)) = true).
    { unfold json_truthy, len. simpl length. apply negb_true_iff, Z.eqb_neq. lia. }
    rewrite Htruthy. cbn [negb json_len json_iter rbind].
    by rewrite (paid_items_loop_bad _ 0 Hbad).
  - intros n. rewrite Hgood.
    + rewrite filter_repeat_paid. unfold len. rewrite repeat_length. f_equal.
      destruct (Z.ltb_spec (Z.of_nat n) 5), (Z.ltb_spec (Z.of_nat n) 2);
        simpl; (done || lia).
    + clear. induction n as [|n IH]; simpl; constructor; [by eexists|done].
Qed.
